(** * dex: the order factory and the per-connection socket hub

    A shallow embedding of [dex/order_factory.go] and [dex/socket.go].
    Go structs are records, [uint64] counters are integers reduced modulo
    [2^64], [interface{}] values are a tagged union, the objects decoded by
    [ReadJSON] are finite maps from strings, and the two dispatch loops are
    state-passing functions over the content of the channel they drain.  The
    collaborators that live outside these two files (the random source, the
    signing primitives, the payload decoders, the matching engine and the
    websocket) are interfaces, given as type classes.  Pointers are taken
    non-nil, but for the messages the reader loop delivers, and entities are
    compared by value.  The lines the factory writes to the log are left
    out. *)

From Stdlib Require Import ZArith Lia.
From stdpp Require Import base option list gmap strings.

Set Warnings "-register-all".
Local Open Scope Z_scope.

(** ** Machine integers *)

(** [uint64] arithmetic wraps around. *)
Definition uint64_modulus : Z := 2 ^ 64.

(** [x++] on a [uint64]. *)
Definition uint64_incr (x : Z) : Z := (x + 1) mod uint64_modulus.

(** ** Entities built by the factory *)

(** [common.Address] (20 bytes) and [common.Hash] (32 bytes), as numbers. *)
Definition Address : Type := Z.
Definition Hash : Type := Z.

Record Signature : Type := { sig_R : Hash; sig_S : Hash; sig_V : Z }.

(** [chan *Event]: a channel is known by its identity. *)
Definition EventChan : Type := positive.

Module Token.
Record t : Type := mk { Address : Address; Symbol : string }.
End Token.

Module Wallet.
Record t : Type := mk { Address : Address; PrivateKey : Z }.
End Wallet.

Module TokenPair.
Record t : Type := mk { ID : Hash }.
End TokenPair.

Module OrderParams.
Record t : Type := mk { FeeMake : Z; FeeTake : Z; Nonce : Z; Expires : Z }.
End OrderParams.

(** [*big.Int] fields hold unbounded integers; [Signature] is a pointer and
    may be nil; [events] is nil until a socket attaches its channel. *)
Module Order.
Record t : Type := mk {
    Id : Z;
    ExchangeAddress : Address;
    TokenBuy : Address;
    SymbolBuy : string;
    TokenSell : Address;
    SymbolSell : string;
    AmountBuy : Z;
    AmountSell : Z;
    Expires : Z;
    FeeMake : Z;
    FeeTake : Z;
    Nonce : Z;
    Maker : Address;
    Price : Z;
    Amount : Z;
    PairID : Hash;
    Hash : Hash;
    Signature : option Signature;
    events : option EventChan
  }.

  (** [&Order{}]: every field at its zero value. *)
Definition zero : t :=
    mk 0 0 0 "" 0 "" 0 0 0 0 0 0 0 0 0 0 0 None None.

Definition set_events (c : option EventChan) (o : t) : t :=
    mk (Id o) (ExchangeAddress o) (TokenBuy o) (SymbolBuy o) (TokenSell o)
       (SymbolSell o) (AmountBuy o) (AmountSell o) (Expires o) (FeeMake o)
       (FeeTake o) (Nonce o) (Maker o) (Price o) (Amount o) (PairID o)
       (Hash o) (Signature o) c.

Definition set_signed (h : Z) sg (o : t) : t :=
    mk (Id o) (ExchangeAddress o) (TokenBuy o) (SymbolBuy o) (TokenSell o)
       (SymbolSell o) (AmountBuy o) (AmountSell o) (Expires o) (FeeMake o)
       (FeeTake o) (Nonce o) (Maker o) (Price o) (Amount o) (PairID o)
       h sg (events o).
End Order.

Module Trade.
Record t : Type := mk {
    OrderHash : Hash;
    PairID : Hash;
    Taker : Address;
    TradeNonce : Z;
    Amount : Z;
    Hash : Hash;
    Signature : option Signature;
    events : option EventChan
  }.

Definition zero : t := mk 0 0 0 0 0 0 None None.

Definition set_events (c : option EventChan) (x : t) : t :=
    mk (OrderHash x) (PairID x) (Taker x) (TradeNonce x) (Amount x) (Hash x)
       (Signature x) c.

Definition set_signed (h : Z) sg (x : t) : t :=
    mk (OrderHash x) (PairID x) (Taker x) (TradeNonce x) (Amount x) h sg
       (events x).
End Trade.

Module OrderCancel.
Record t : Type := mk {
    OrderId : Z;
    PairID : Hash;
    OrderHash : Hash;
    Hash : Hash;
    Signature : option Signature
  }.

Definition zero : t := mk 0 0 0 0 None.

Definition set_signed (h : Z) sg (x : t) : t :=
    mk (OrderId x) (PairID x) (OrderHash x) h sg.
End OrderCancel.

(** ** Messages and events *)

(** The constants the two files switch on and send.  A [MessageType] read
    from the wire can be any other string as well. *)
Inductive MessageType : Type :=
  | PLACE_ORDER
  | CANCEL_ORDER
  | SIGNED_DATA
  | DONE
  | ORDER_PLACED
  | ORDER_PARTIALLY_FILLED
  | ORDER_FILLED
  | ORDER_CANCELED
  | ORDER_EXECUTED
  | ORDER_TX_SUCCESS
  | ORDER_TX_ERROR
  | TRADE_EXECUTED
  | TRADE_TX_SUCCESS
  | TRADE_TX_ERROR
  | OTHER_TYPE (name : string).

(** What [ReadJSON] stores in an [interface{}]. *)
Inductive JSON : Type :=
  | JNull
  | JBool (b : bool)
  | JNumber (literal : string)
  | JString (s : string)
  | JArray (items : list JSON)
  | JObject (fields : gmap string JSON).

Module OrderPayload.
Record t : Type := mk { Order : Order.t }.
End OrderPayload.

Module TradePayload.
Record t : Type := mk { Trade : Trade.t }.
End TradePayload.

Module OrderCancelPayload.
Record t : Type := mk { OrderCancel : OrderCancel.t }.
End OrderCancelPayload.

(** [type Payload interface{}]: the dynamic types that reach the hub.  The nil
    interface is [JsonPayload JNull]. *)
Inductive Payload : Type :=
  | JsonPayload (j : JSON)
  | OrderPtr (o : Order.t)
  | TradePtr (t : Trade.t)
  | OrderPayloadPtr (p : OrderPayload.t)
  | TradePayloadPtr (p : TradePayload.t)
  | OrderCancelPayloadPtr (p : OrderCancelPayload.t).

Module Message.
Record t : Type := mk { MessageType : MessageType; Payload : Payload }.
End Message.

Module Event.
Record t : Type := mk { eventType : MessageType; payload : Payload }.
End Event.

Definition Error : Type := string.

(** ** Collaborators of the factory *)

(** [math/rand].  [Intn g n] is the draw together with the generator after
    it; the contract is the documented one: for [n > 0] the draw lies in the
    half-open interval from [0] to [n]. *)
Class RandSource : Type := {
  Rand : Type;
  Intn : Rand -> Z -> Z * Rand;
  Intn_range : forall (g : Rand) (n : Z), 0 < n -> 0 <= (Intn g n).1 < n
}.

(** Hashing of the three entities and the wallet's signature primitive. *)
Class Signing : Type := {
  Order_ComputeHash : Order.t -> Hash;
  Trade_ComputeHash : Trade.t -> Hash;
  OrderCancel_ComputeHash : OrderCancel.t -> Hash;
  SignHash : Wallet.t -> Hash -> Signature
}.

(** [*ethclient.Client]: an opaque handle on the dialled endpoint. *)
Definition Client : Type := string.

Module OrderFactory.
Record t (Rand : Type) : Type := mk {
  Client : Client;
  Pair : TokenPair.t;
  Wallet : Wallet.t;
  Exchange : Address;
  Params : OrderParams.t;
  TradeNonce : Z;
  OrderNonce : Z;
  CurrentOrderID : Z;
  NonceGenerator : Rand
}.
Arguments mk {Rand}.
Arguments Client {Rand}.
Arguments Pair {Rand}.
Arguments Wallet {Rand}.
Arguments Exchange {Rand}.
Arguments Params {Rand}.
Arguments TradeNonce {Rand}.
Arguments OrderNonce {Rand}.
Arguments CurrentOrderID {Rand}.
Arguments NonceGenerator {Rand}.

Definition set_Exchange {Rand} (a : Address) (f : t Rand) : t Rand :=
  mk (Client f) (Pair f) (Wallet f) a (Params f) (TradeNonce f)
     (OrderNonce f) (CurrentOrderID f) (NonceGenerator f).

Definition set_TradeNonce {Rand} (n : Z) (f : t Rand) : t Rand :=
  mk (Client f) (Pair f) (Wallet f) (Exchange f) (Params f) n
     (OrderNonce f) (CurrentOrderID f) (NonceGenerator f).

Definition set_OrderNonce {Rand} (n : Z) (f : t Rand) : t Rand :=
  mk (Client f) (Pair f) (Wallet f) (Exchange f) (Params f) (TradeNonce f)
     n (CurrentOrderID f) (NonceGenerator f).

Definition set_CurrentOrderID {Rand} (n : Z) (f : t Rand) : t Rand :=
  mk (Client f) (Pair f) (Wallet f) (Exchange f) (Params f) (TradeNonce f)
     (OrderNonce f) n (NonceGenerator f).

Definition set_NonceGenerator {Rand} (g : Rand) (f : t Rand) : t Rand :=
  mk (Client f) (Pair f) (Wallet f) (Exchange f) (Params f) (TradeNonce f)
     (OrderNonce f) (CurrentOrderID f) g.
End OrderFactory.

(** [big.NewInt] is exact, and so is the conversion [int64(n)] of a draw of
    [Intn(1000)]. *)
Definition big_NewInt (x : Z) : Z := x.

Section Factory.
Context {rnd : RandSource} {sgn : Signing}.

Abbreviation Factory := (OrderFactory.t Rand).

(** Modelled from the spec: [Order.Sign], [Trade.Sign] and [OrderCancel.Sign]
    are declared outside the two source files.  The spec has each factory
    operation sign the entity with the bound wallet, has signing never fail
    inside the factory, and lists a derived hash and a signature among the
    fields of the entity. *)
Definition Order_Sign (w : Wallet.t) (o : Order.t) : Order.t :=
  let h := Order_ComputeHash o in
  Order.set_signed h (Some (SignHash w h)) o.

Definition Trade_Sign (w : Wallet.t) (x : Trade.t) : Trade.t :=
  let h := Trade_ComputeHash x in
  Trade.set_signed h (Some (SignHash w h)) x.

Definition OrderCancel_Sign (w : Wallet.t) (x : OrderCancel.t)
  : OrderCancel.t :=
  let h := OrderCancel_ComputeHash x in
  OrderCancel.set_signed h (Some (SignHash w h)) x.

(** [NewOrderFactory].  The outcome of dialling the endpoint, the global
    [config.Exchange] and the generator seeded from the clock come from the
    environment.  [TradeNonce] and [OrderNonce] are left at their zero
    value. *)
Definition NewOrderFactory (dial : Client + Error) (config_Exchange : Address)
    (ng : Rand) (p : TokenPair.t) (w : Wallet.t) : option Factory :=
  match dial with
  | inr _ => None
  | inl client =>
      let params :=
        OrderParams.mk (big_NewInt 0) (big_NewInt 0) (big_NewInt 0)
                       (big_NewInt (10 ^ 18)) in
      Some (OrderFactory.mk client p w config_Exchange params 0 0 0 ng)
  end.

Definition SetExchangeAddress (f : Factory) (exchange : Address)
  : option Error * Factory :=
  (None, OrderFactory.set_Exchange exchange f).

(** [NewOrder]: the order and the error (always nil), and the factory after
    the call. *)
Definition NewOrder (f : Factory) (tokenBuy : Token.t) (amountBuy : Z)
    (tokenSell : Token.t) (amountSell : Z)
  : (Order.t * option Error) * Factory :=
  let (n, ng) := Intn (OrderFactory.NonceGenerator f) 1000 in
  let o :=
    Order.mk (OrderFactory.CurrentOrderID f)
             (OrderFactory.Exchange f)
             (Token.Address tokenBuy) (Token.Symbol tokenBuy)
             (Token.Address tokenSell) (Token.Symbol tokenSell)
             (big_NewInt amountBuy) (big_NewInt amountSell)
             (OrderParams.Expires (OrderFactory.Params f))
             (OrderParams.FeeMake (OrderFactory.Params f))
             (OrderParams.FeeTake (OrderFactory.Params f))
             (big_NewInt n)
             (Wallet.Address (OrderFactory.Wallet f))
             0 0
             (TokenPair.ID (OrderFactory.Pair f))
             (Order.Hash Order.zero) (Order.Signature Order.zero)
             (Order.events Order.zero) in
  let o := Order_Sign (OrderFactory.Wallet f) o in
  let f := OrderFactory.set_NonceGenerator ng f in
  let f := OrderFactory.set_OrderNonce
             (uint64_incr (OrderFactory.OrderNonce f)) f in
  let f := OrderFactory.set_CurrentOrderID
             (uint64_incr (OrderFactory.CurrentOrderID f)) f in
  ((o, None), f).

(** [NewOrderMessage]: message, order and error.  The fourth argument passed
    on to [NewOrder] is [amountBuy], as in the source. *)
Definition NewOrderMessage (f : Factory) (tokenBuy : Token.t) (amountBuy : Z)
    (tokenSell : Token.t) (amountSell : Z)
  : (option Message.t * option Order.t * option Error) * Factory :=
  let '((o, err), f) := NewOrder f tokenBuy amountBuy tokenSell amountBuy in
  match err with
  | Some e => ((None, None, Some e), f)
  | None =>
      let p := OrderPayload.mk o in
      ((Some (Message.mk PLACE_ORDER (OrderPayloadPtr p)), Some o, None), f)
  end.

Definition NewTrade (f : Factory) (o : Order.t) (amount : Z)
  : (Trade.t * option Error) * Factory :=
  let (n, ng) := Intn (OrderFactory.NonceGenerator f) 1000 in
  let x :=
    Trade.mk (Order.Hash o)
             (TokenPair.ID (OrderFactory.Pair f))
             (Wallet.Address (OrderFactory.Wallet f))
             (big_NewInt n)
             (big_NewInt amount)
             (Trade.Hash Trade.zero) (Trade.Signature Trade.zero)
             (Trade.events Trade.zero) in
  let x := Trade_Sign (OrderFactory.Wallet f) x in
  let f := OrderFactory.set_NonceGenerator ng f in
  let f := OrderFactory.set_TradeNonce
             (uint64_incr (OrderFactory.TradeNonce f)) f in
  ((x, None), f).

Definition NewOrderCancel (f : Factory) (o : Order.t)
  : (OrderCancel.t * option Error) * Factory :=
  let oc :=
    OrderCancel.mk (Order.Id o)
                   (TokenPair.ID (OrderFactory.Pair f))
                   (Order.Hash o)
                   (OrderCancel.Hash OrderCancel.zero)
                   (OrderCancel.Signature OrderCancel.zero) in
  let oc := OrderCancel_Sign (OrderFactory.Wallet f) oc in
  ((oc, None), f).

Definition NewCancelOrderMessage (f : Factory) (o : Order.t)
  : (option Message.t * option Error) * Factory :=
  let '((oc, err), f) := NewOrderCancel f o in
  match err with
  | Some e => ((None, Some e), f)
  | None =>
      let p := OrderCancelPayload.mk oc in
      ((Some (Message.mk CANCEL_ORDER (OrderCancelPayloadPtr p)), None), f)
  end.

(** [NewOrder] called once per element of [calls], in order, on the factory
    left by the call before. *)
Definition OrderArgs : Type := (Token.t * Z * Token.t * Z)%type.

Fixpoint NewOrders (f : Factory) (calls : list OrderArgs)
  : list Order.t * Factory :=
  match calls with
  | [] => ([], f)
  | (tokenBuy, amountBuy, tokenSell, amountSell) :: rest =>
      let '((o, _), f1) := NewOrder f tokenBuy amountBuy tokenSell amountSell in
      let (os, f2) := NewOrders f1 rest in
      (o :: os, f2)
  end.

End Factory.

(** ** Collaborators of the socket *)

(** The three operations of [server.engine]. *)
Inductive EngineCall : Type :=
  | AddOrder (o : Order.t)
  | CancelOrder (oc : OrderCancel.t)
  | ExecuteOrder (t : Trade.t).

(** The matching engine: its answer to a call may depend on the calls it has
    received before. *)
Class Engine : Type := {
  engine_reply : list EngineCall -> EngineCall -> option Error
}.

(** The websocket: the outcome of [WriteJSON], given the frames written
    before. *)
Class Connection : Type := {
  WriteJSON_reply : list Message.t -> Message.t -> option Error
}.

(** The decoders of the three payloads.  Each one fills the object it is
    called on; the two payload decoders also report an error. *)
Class Decoders : Type := {
  Order_Decode : gmap string JSON -> Order.t -> Order.t;
  NewOrderCancelPayload : OrderCancelPayload.t;
  DecodeOrderCancelPayload :
    OrderCancelPayload.t -> Payload -> OrderCancelPayload.t * option Error;
  NewTradePayload : TradePayload.t;
  DecodeTradePayload :
    TradePayload.t -> Payload -> TradePayload.t * option Error
}.

(** ** The socket *)

(** One line printed by [log.Printf] or [fmt.Printf]: the format and the
    value printed with it. *)
Inductive Printed : Type :=
  | NoArg
  | ErrorArg (e : Error)
  | TradeArg (t : Trade.t).

Definition Line : Type := (string * Printed)%type.

(** A socket: the identity of its [events] channel, and what it has done so
    far to its engine, its connection, the log and the standard output, each
    oldest first. *)
Module Socket.
Record t : Type := mk {
  events : EventChan;
  engine : list EngineCall;
  connection : list Message.t;
  log : list Line;
  stdout : list Line
}.

Definition open (events : EventChan) : t := mk events [] [] [] [].
End Socket.

(** A run of socket code either returns or panics, and in both cases leaves
    a socket behind. *)
Inductive Outcome (A : Type) : Type :=
  | Returns (a : A) (s : Socket.t)
  | Panics (reason : string) (s : Socket.t).
Arguments Returns {A}.
Arguments Panics {A}.

Definition Hub (A : Type) : Type := Socket.t -> Outcome A.

Definition socket_after {A} (r : Outcome A) : Socket.t :=
  match r with Returns _ s => s | Panics _ s => s end.

Definition panicked {A} (r : Outcome A) : bool :=
  match r with Returns _ _ => false | Panics _ _ => true end.

#[export] Instance Hub_ret : MRet Hub := fun A a s => Returns a s.

#[export] Instance Hub_bind : MBind Hub := fun A B k c s =>
  match c s with
  | Returns a s1 => k a s1
  | Panics reason s1 => Panics reason s1
  end.

Definition panic {A} (reason : string) : Hub A := fun s => Panics reason s.

Definition get_events : Hub EventChan := fun s => Returns (Socket.events s) s.

Definition log_Printf (format : string) (arg : Printed) : Hub unit := fun s =>
  Returns tt
    (Socket.mk (Socket.events s) (Socket.engine s) (Socket.connection s)
               (Socket.log s ++ [(format, arg)]) (Socket.stdout s)).

Definition fmt_Printf (format : string) (arg : Printed) : Hub unit := fun s =>
  Returns tt
    (Socket.mk (Socket.events s) (Socket.engine s) (Socket.connection s)
               (Socket.log s) (Socket.stdout s ++ [(format, arg)])).

(** [if err != nil { log.Printf(format, err) }] *)
Definition log_if_error (format : string) (err : option Error) : Hub unit :=
  match err with
  | Some e => log_Printf format (ErrorArg e)
  | None => mret tt
  end.

(** Type assertions without the comma-ok form panic on a mismatch. *)
Definition interface_conversion : string := "interface conversion".

(** [p.(map[string]interface{})] *)
Definition assert_map (p : Payload) : Hub (gmap string JSON) :=
  match p with
  | JsonPayload (JObject fields) => mret fields
  | _ => panic interface_conversion
  end.

(** [m[key]] on a [map[string]interface{}]: the nil interface when the key is
    absent. *)
Definition index (m : gmap string JSON) (key : string) : Payload :=
  JsonPayload (default JNull (m !! key)).

(** The assertions of [e.payload] to a pointer to [Order], to [Trade] and to
    [TradePayload]. *)
Definition assert_Order (p : Payload) : Hub Order.t :=
  match p with
  | OrderPtr o => mret o
  | _ => panic interface_conversion
  end.

Definition assert_Trade (p : Payload) : Hub Trade.t :=
  match p with
  | TradePtr t => mret t
  | _ => panic interface_conversion
  end.

Definition assert_TradePayload (p : Payload) : Hub TradePayload.t :=
  match p with
  | TradePayloadPtr tp => mret tp
  | _ => panic interface_conversion
  end.

Section SocketCode.
Context {eng : Engine} {conn : Connection} {dec : Decoders}.

(** A call on [s.server.engine]. *)
Definition engine_call (c : EngineCall) : Hub (option Error) := fun s =>
  Returns (engine_reply (Socket.engine s) c)
    (Socket.mk (Socket.events s) (Socket.engine s ++ [c])
               (Socket.connection s) (Socket.log s) (Socket.stdout s)).

(** [s.connection.WriteJSON(&m)] *)
Definition WriteJSON (m : Message.t) : Hub (option Error) := fun s =>
  Returns (WriteJSON_reply (Socket.connection s) m)
    (Socket.mk (Socket.events s) (Socket.engine s)
               (Socket.connection s ++ [m]) (Socket.log s) (Socket.stdout s)).

Definition placeOrder (p : Payload) : Hub unit :=
  m ← assert_map p;
  payload ← assert_map (index m "order");
  let o := Order_Decode payload Order.zero in
  events ← get_events;
  let o := Order.set_events (Some events) o in
  err ← engine_call (AddOrder o);
  log_if_error "Error: Failed processing order: %v" err.

Definition cancelOrder (p : Payload) : Hub unit :=
  let ocp := NewOrderCancelPayload in
  let (ocp, err) := DecodeOrderCancelPayload ocp p in
  log_if_error "Error: %v" err;;
  let oc := OrderCancelPayload.OrderCancel ocp in
  err ← engine_call (CancelOrder oc);
  log_if_error "Error: %v" err.

Definition executeOrder (p : Payload) : Hub unit :=
  let tp := NewTradePayload in
  let (tp, err) := DecodeTradePayload tp p in
  log_if_error "Error: %v" err;;
  let t := TradePayload.Trade tp in
  events ← get_events;
  let t := Trade.set_events (Some events) t in
  err ← engine_call (ExecuteOrder t);
  log_if_error "Error: %v" err;;
  fmt_Printf "\nLOG: Executing order. Payload:\n%v\n\n" (TradeArg t).

(** The [send...] methods: build the message, write it, return the error of
    the write. *)
Definition send (m : Message.t) : Hub (option Error) :=
  err ← WriteJSON m;
  match err with
  | Some e => mret (Some e)
  | None => mret None
  end.

Definition sendOrderPlaced (o : Order.t) : Hub (option Error) :=
  let p := OrderPayload.mk o in
  send (Message.mk ORDER_PLACED (OrderPayloadPtr p)).

Definition sendOrderFilled (p : TradePayload.t) : Hub (option Error) :=
  send (Message.mk ORDER_FILLED (TradePayloadPtr p)).

Definition sendOrderPartiallyFilled (p : TradePayload.t)
  : Hub (option Error) :=
  fmt_Printf "Send order partially filled message" NoArg;;
  send (Message.mk ORDER_PARTIALLY_FILLED (TradePayloadPtr p)).

Definition sendOrderCanceled (o : Order.t) : Hub (option Error) :=
  fmt_Printf "Send order canceled message" NoArg;;
  let p := OrderPayload.mk o in
  send (Message.mk ORDER_CANCELED (OrderPayloadPtr p)).

Definition sendOrderExecuted (o : Order.t) : Hub (option Error) :=
  let p := OrderPayload.mk o in
  send (Message.mk ORDER_EXECUTED (OrderPayloadPtr p)).

Definition sendOrderTxSuccess (o : Order.t) : Hub (option Error) :=
  let p := OrderPayload.mk o in
  send (Message.mk ORDER_TX_SUCCESS (OrderPayloadPtr p)).

Definition sendOrderTxError (o : Order.t) : Hub (option Error) :=
  let p := OrderPayload.mk o in
  send (Message.mk ORDER_TX_ERROR (OrderPayloadPtr p)).

Definition sendTradeExecuted (t : Trade.t) : Hub (option Error) :=
  let p := TradePayload.mk t in
  send (Message.mk TRADE_EXECUTED (TradePayloadPtr p)).

Definition sendTradeTxSuccess (t : Trade.t) : Hub (option Error) :=
  let p := TradePayload.mk t in
  send (Message.mk TRADE_TX_SUCCESS (TradePayloadPtr p)).

Definition sendTradeTxError (t : Trade.t) : Hub (option Error) :=
  let p := TradePayload.mk t in
  send (Message.mk TRADE_TX_ERROR (TradePayloadPtr p)).

(** One turn of the loop of [handleMessagesIn], on the message [m] taken from
    [s.messagesIn]. *)
Definition handleMessageIn (m : Message.t) : Hub unit :=
  match Message.MessageType m with
  | PLACE_ORDER => placeOrder (Message.Payload m)
  | CANCEL_ORDER => cancelOrder (Message.Payload m)
  | SIGNED_DATA => executeOrder (Message.Payload m)
  | DONE => mret tt
  | _ => panic "Unknown message type"
  end.

(** [handleMessagesIn] on a channel that delivers [queue], oldest first: the
    loop returns to the receive once the queue is drained. *)
Fixpoint handleMessagesIn (queue : list Message.t) : Hub unit :=
  match queue with
  | [] => mret tt
  | m :: rest => handleMessageIn m;; handleMessagesIn rest
  end.

(** One turn of the loop of [handleMessagesOut], on the event [e] taken from
    [s.events].  The error a [send...] method returns is dropped. *)
Definition handleMessageOut (e : Event.t) : Hub unit :=
  log_Printf "Received an event" NoArg;;
  match Event.eventType e with
  | ORDER_PLACED =>
      order ← assert_Order (Event.payload e);
      sendOrderPlaced order;; mret tt
  | ORDER_PARTIALLY_FILLED =>
      order ← assert_TradePayload (Event.payload e);
      sendOrderPartiallyFilled order;; mret tt
  | ORDER_FILLED =>
      payload ← assert_TradePayload (Event.payload e);
      sendOrderFilled payload;; mret tt
  | ORDER_CANCELED =>
      order ← assert_Order (Event.payload e);
      sendOrderCanceled order;; mret tt
  | ORDER_EXECUTED =>
      log_Printf "Trade has bee executed" NoArg;;
      order ← assert_Order (Event.payload e);
      sendOrderExecuted order;; mret tt
  | ORDER_TX_SUCCESS =>
      log_Printf "Order TX success" NoArg;;
      order ← assert_Order (Event.payload e);
      sendOrderTxSuccess order;; mret tt
  | ORDER_TX_ERROR =>
      log_Printf "Order TX error" NoArg;;
      order ← assert_Order (Event.payload e);
      sendOrderTxSuccess order;; mret tt
  | TRADE_EXECUTED =>
      log_Printf "Trade executed" NoArg;;
      trade ← assert_Trade (Event.payload e);
      sendTradeExecuted trade;; mret tt
  | TRADE_TX_SUCCESS =>
      log_Printf "Trade Tx Success" NoArg;;
      trade ← assert_Trade (Event.payload e);
      sendTradeTxSuccess trade;; mret tt
  | TRADE_TX_ERROR =>
      log_Printf "Trade Tx Error" NoArg;;
      trade ← assert_Trade (Event.payload e);
      sendTradeTxSuccess trade;; mret tt
  | DONE => mret tt
  | _ => panic "Unknown action type"
  end.

Fixpoint handleMessagesOut (queue : list Event.t) : Hub unit :=
  match queue with
  | [] => mret tt
  | e :: rest => handleMessageOut e;; handleMessagesOut rest
  end.

End SocketCode.

(** ** The two tables of the interface description *)

Inductive EngineOp : Type := OpAddOrder | OpCancelOrder | OpExecuteOrder.

Definition op_of_call (c : EngineCall) : EngineOp :=
  match c with
  | AddOrder _ => OpAddOrder
  | CancelOrder _ => OpCancelOrder
  | ExecuteOrder _ => OpExecuteOrder
  end.

(** Inbound table: the engine operation a message kind is forwarded to. *)
Definition forwarded_to (kind : MessageType) : option EngineOp :=
  match kind with
  | PLACE_ORDER => Some OpAddOrder
  | CANCEL_ORDER => Some OpCancelOrder
  | SIGNED_DATA => Some OpExecuteOrder
  | _ => None
  end.

(** The kinds the inbound dispatch accepts. *)
Definition inbound_kind (kind : MessageType) : bool :=
  match kind with
  | PLACE_ORDER | CANCEL_ORDER | SIGNED_DATA | DONE => true
  | _ => false
  end.

(** Outbound table: the kind of the message an event kind corresponds to,
    one to one; [None] for the kinds that are not in the table. *)
Definition outbound_kind (kind : MessageType) : option MessageType :=
  match kind with
  | ORDER_PLACED => Some ORDER_PLACED
  | ORDER_PARTIALLY_FILLED => Some ORDER_PARTIALLY_FILLED
  | ORDER_FILLED => Some ORDER_FILLED
  | ORDER_CANCELED => Some ORDER_CANCELED
  | ORDER_EXECUTED => Some ORDER_EXECUTED
  | ORDER_TX_SUCCESS => Some ORDER_TX_SUCCESS
  | ORDER_TX_ERROR => Some ORDER_TX_ERROR
  | TRADE_EXECUTED => Some TRADE_EXECUTED
  | TRADE_TX_SUCCESS => Some TRADE_TX_SUCCESS
  | TRADE_TX_ERROR => Some TRADE_TX_ERROR
  | _ => None
  end.

(** The payload wrapper of an outbound message around the entity an event
    carries: [{order}] around an order, [{trade}] around a trade. *)
Definition wrapped (payload : Payload) : Payload :=
  match payload with
  | OrderPtr o => OrderPayloadPtr (OrderPayload.mk o)
  | TradePtr t => TradePayloadPtr (TradePayload.mk t)
  | other => other
  end.

(** The dynamic type the outbound dispatch asserts for the payload of an
    event of each kind. *)
Definition payload_matches (kind : MessageType) (payload : Payload) : bool :=
  match kind, payload with
  | (ORDER_PLACED | ORDER_CANCELED | ORDER_EXECUTED | ORDER_TX_SUCCESS
     | ORDER_TX_ERROR), OrderPtr _ => true
  | (ORDER_PARTIALLY_FILLED | ORDER_FILLED), TradePayloadPtr _ => true
  | (TRADE_EXECUTED | TRADE_TX_SUCCESS | TRADE_TX_ERROR), TradePtr _ => true
  | _, _ => false
  end.

(** A [PLACE_ORDER] message carries a nested [order] object. *)
Definition has_order_object (p : Payload) : bool :=
  match p with
  | JsonPayload (JObject fields) =>
      match fields !! "order" with
      | Some (JObject _) => true
      | _ => false
      end
  | _ => false
  end.

Definition place_order_well_formed (m : Message.t) : bool :=
  match Message.MessageType m with
  | PLACE_ORDER => has_order_object (Message.Payload m)
  | _ => true
  end.


(** ** Stand-ins for the collaborators, to run the code on *)

(** A linear congruential generator; the draw is the state reduced modulo
    the bound. *)
Definition lcg_next (g : Z) : Z :=
  (6364136223846793005 * g + 1442695040888963407) mod uint64_modulus.

Definition lcg_Intn (g n : Z) : Z * Z :=
  (Z.shiftr (lcg_next g) 33 mod n, lcg_next g).

Definition lcg : RandSource :=
  {| Rand := Z;
     Intn := lcg_Intn;
     Intn_range := fun g n Hn =>
       Z.mod_pos_bound (Z.shiftr (lcg_next g) 33) n Hn |}.

(** A signature that only records what was signed and with which key. *)
Definition toy_signing : Signing :=
  {| Order_ComputeHash := fun o =>
       Order.Id o + Order.AmountBuy o + Order.AmountSell o + Order.Nonce o;
     Trade_ComputeHash := fun t =>
       Trade.OrderHash t + Trade.Amount t + Trade.TradeNonce t;
     OrderCancel_ComputeHash := fun oc =>
       OrderCancel.OrderId oc + OrderCancel.OrderHash oc;
     SignHash := fun w h =>
       {| sig_R := h; sig_S := Wallet.PrivateKey w; sig_V := 27 |} |}.

(** An engine that accepts every call, and one that rejects every call. *)
Definition accepting_engine : Engine :=
  {| engine_reply := fun _ _ => None |}.

Definition rejecting_engine : Engine :=
  {| engine_reply := fun _ _ => Some "rejected" |}.

(** A connection on which every write succeeds. *)
Definition open_connection : Connection :=
  {| WriteJSON_reply := fun _ _ => None |}.

(** Decoders that read the symbols of an order, and that report an error on
    a payload that is not an object. *)
Definition json_string (fields : gmap string JSON) (key : string) : string :=
  match fields !! key with
  | Some (JString s) => s
  | _ => ""
  end.

Definition toy_decoders : Decoders :=
  {| Order_Decode := fun fields o =>
       Order.mk (Order.Id o) (Order.ExchangeAddress o) (Order.TokenBuy o)
                (json_string fields "symbolBuy") (Order.TokenSell o)
                (json_string fields "symbolSell") (Order.AmountBuy o)
                (Order.AmountSell o) (Order.Expires o) (Order.FeeMake o)
                (Order.FeeTake o) (Order.Nonce o) (Order.Maker o)
                (Order.Price o) (Order.Amount o) (Order.PairID o)
                (Order.Hash o) (Order.Signature o) (Order.events o);
     NewOrderCancelPayload := OrderCancelPayload.mk OrderCancel.zero;
     DecodeOrderCancelPayload := fun ocp p =>
       match p with
       | JsonPayload (JObject _) => (ocp, None)
       | _ => (ocp, Some "payload is not an object")
       end;
     NewTradePayload := TradePayload.mk Trade.zero;
     DecodeTradePayload := fun tp p =>
       match p with
       | JsonPayload (JObject _) => (tp, None)
       | _ => (tp, Some "payload is not an object")
       end |}.

Definition tokenA : Token.t := Token.mk 10 "A".
Definition tokenB : Token.t := Token.mk 11 "B".

Definition sample_wallet : Wallet.t := Wallet.mk 77 123456789.

Definition sample_pair : TokenPair.t := TokenPair.mk 4242.

(** A factory as [NewOrderFactory] returns it when the dial succeeds. *)
Definition sample_factory : OrderFactory.t Z :=
  OrderFactory.mk "ws://127.0.0.1:8546" sample_pair sample_wallet 99
    (OrderParams.mk 0 0 0 (10 ^ 18)) 0 0 0 2024.

Definition sample_order : Order.t :=
  Order.mk 7 99 10 "A" 11 "B" 100 50 (10 ^ 18) 0 0 5 77 0 0 4242 162
           (Some {| sig_R := 162; sig_S := 123456789; sig_V := 27 |}) None.

Definition sample_trade : Trade.t :=
  Trade.mk 162 4242 77 8 25 195
           (Some {| sig_R := 195; sig_S := 123456789; sig_V := 27 |}) None.

Definition sample_socket : Socket.t := Socket.open 1%positive.

(** Inbound messages: a well-formed one of each kind, a [PLACE_ORDER]
    without its [order] object, and a payload no decoder accepts. *)
Definition place_order_message : Message.t :=
  Message.mk PLACE_ORDER
    (JsonPayload
       (JObject
          {[ "order" :=
               JObject {[ "symbolBuy" := JString "A";
                          "symbolSell" := JString "B" ]} ]})).

Definition cancel_order_message : Message.t :=
  Message.mk CANCEL_ORDER (JsonPayload (JObject ∅)).

Definition signed_data_message : Message.t :=
  Message.mk SIGNED_DATA (JsonPayload (JObject ∅)).

Definition done_message : Message.t :=
  Message.mk DONE (JsonPayload JNull).

Definition sample_queue : list Message.t :=
  [place_order_message; cancel_order_message; done_message;
   signed_data_message; place_order_message].


Definition undecodable : Payload := JsonPayload (JString "garbage").

Definition sample_calls : list OrderArgs :=
  [(tokenA, 100, tokenB, 50); (tokenB, 7, tokenA, 3); (tokenA, 1, tokenB, 1)].

(** One call more than a [uint64] counter has values. *)
Definition calls_past_wrap : list OrderArgs :=
  replicate (S (Z.to_nat uint64_modulus)) (tokenA, 100, tokenB, 50).

(** ** The reader loop *)

(** An error of [ReadJSON]: a close frame of the peer, which gorilla reports
    as a [CloseError] with its code, or anything else (a payload that is not
    JSON, a broken link). *)
Inductive ReadError : Type :=
  | CloseError (code : Z) (text : Error)
  | OtherReadError (text : Error).

Definition ReadError_text (err : ReadError) : Error :=
  match err with
  | CloseError _ text => text
  | OtherReadError text => text
  end.

Definition CloseGoingAway : Z := 1001.
Definition CloseAbnormalClosure : Z := 1006.

(** [websocket.IsUnexpectedCloseError], as gorilla defines it: a close error
    whose code is none of the expected ones. *)
Fixpoint unexpected_code (code : Z) (expectedCodes : list Z) : bool :=
  match expectedCodes with
  | [] => true
  | expected :: rest =>
      if code =? expected then false else unexpected_code code rest
  end.

Definition IsUnexpectedCloseError (err : ReadError) (expectedCodes : list Z)
  : bool :=
  match err with
  | CloseError code _ => unexpected_code code expectedCodes
  | OtherReadError _ => false
  end.

(** What one [ReadJSON] on the connection gives: a message, with its kind
    and its JSON payload, or an error.  The loop decodes into a pointer to
    the pointer [message], so a frame that is the JSON literal [null] is read
    without an error and leaves [message] nil: that read is [inl None]. *)
Definition Frame : Type := (option (MessageType * JSON) + ReadError)%type.

(** The pointer a successful read leaves in [message]; [None] is nil. *)
Definition message_read (read : option (MessageType * JSON))
  : option Message.t :=
  match read with
  | Some (kind, payload) => Some (Message.mk kind (JsonPayload payload))
  | None => None
  end.

(** [listenToMessagesIn] on a connection whose reads give [frames], oldest
    first: the pointers sent to [s.messagesIn] and the lines logged.  The
    loop breaks at the first error; when the frames run out it is waiting in
    [ReadJSON]. *)
Fixpoint listenToMessagesIn (frames : list Frame)
  : list (option Message.t) * list Line :=
  match frames with
  | [] => ([], [])
  | inr err :: _ =>
      ([],
       if IsUnexpectedCloseError err [CloseGoingAway; CloseAbnormalClosure]
       then [("Error: %v", ErrorArg (ReadError_text err))]
       else [])
  | inl read :: rest =>
      let (queue, lines) := listenToMessagesIn rest in
      (message_read read :: queue, lines)
  end.

(** ** Sequences of calls on a factory *)

(** A call of one of the methods of a factory that is in use. *)
Inductive FactoryCall : Type :=
  | CallNewOrder (tokenBuy : Token.t) (amountBuy : Z) (tokenSell : Token.t)
      (amountSell : Z)
  | CallNewOrderMessage (tokenBuy : Token.t) (amountBuy : Z)
      (tokenSell : Token.t) (amountSell : Z)
  | CallNewTrade (o : Order.t) (amount : Z)
  | CallNewOrderCancel (o : Order.t)
  | CallNewCancelOrderMessage (o : Order.t)
  | CallSetExchangeAddress (exchange : Address).

(** The factory after a call, and after a sequence of calls. *)
Definition call_factory {rnd : RandSource} {sgn : Signing}
    (f : OrderFactory.t Rand) (c : FactoryCall) : OrderFactory.t Rand :=
  match c with
  | CallNewOrder tokenBuy amountBuy tokenSell amountSell =>
      (NewOrder f tokenBuy amountBuy tokenSell amountSell).2
  | CallNewOrderMessage tokenBuy amountBuy tokenSell amountSell =>
      (NewOrderMessage f tokenBuy amountBuy tokenSell amountSell).2
  | CallNewTrade o amount => (NewTrade f o amount).2
  | CallNewOrderCancel o => (NewOrderCancel f o).2
  | CallNewCancelOrderMessage o => (NewCancelOrderMessage f o).2
  | CallSetExchangeAddress exchange => (SetExchangeAddress f exchange).2
  end.

Definition call_all {rnd : RandSource} {sgn : Signing}
    (f : OrderFactory.t Rand) (calls : list FactoryCall)
  : OrderFactory.t Rand :=
  foldl call_factory f calls.

Definition builds_order (c : FactoryCall) : bool :=
  match c with
  | CallNewOrder _ _ _ _ | CallNewOrderMessage _ _ _ _ => true
  | _ => false
  end.

Definition builds_trade (c : FactoryCall) : bool :=
  match c with
  | CallNewTrade _ _ => true
  | _ => false
  end.

Definition exchange_set (c : FactoryCall) : option Address :=
  match c with
  | CallSetExchangeAddress exchange => Some exchange
  | _ => None
  end.

Definition count_calls (test : FactoryCall -> bool)
    (calls : list FactoryCall) : Z :=
  Z.of_nat (length (List.filter test calls)).

(** ** What the two dispatchers do with one item *)

(** The kind of the message the case of an event kind sends in
    [handleMessagesOut]; [None] for [DONE] and for the kinds that reach the
    default case. *)
Definition sent_kind (kind : MessageType) : option MessageType :=
  match kind with
  | ORDER_PLACED => Some ORDER_PLACED
  | ORDER_PARTIALLY_FILLED => Some ORDER_PARTIALLY_FILLED
  | ORDER_FILLED => Some ORDER_FILLED
  | ORDER_CANCELED => Some ORDER_CANCELED
  | ORDER_EXECUTED => Some ORDER_EXECUTED
  | ORDER_TX_SUCCESS => Some ORDER_TX_SUCCESS
  | ORDER_TX_ERROR => Some ORDER_TX_SUCCESS
  | TRADE_EXECUTED => Some TRADE_EXECUTED
  | TRADE_TX_SUCCESS => Some TRADE_TX_SUCCESS
  | TRADE_TX_ERROR => Some TRADE_TX_SUCCESS
  | _ => None
  end.

Definition sent_message (e : Event.t) : option Message.t :=
  match sent_kind (Event.eventType e) with
  | Some kind => Some (Message.mk kind (wrapped (Event.payload e)))
  | None => None
  end.

(** An event the outbound switch handles without a panic: [DONE], or a kind
    with a case of its own and a payload of the type that case asserts. *)
Definition event_accepted (e : Event.t) : bool :=
  match Event.eventType e with
  | DONE => true
  | kind => payload_matches kind (Event.payload e)
  end.

(** A message the inbound switch handles without a panic. *)
Definition message_accepted (m : Message.t) : bool :=
  inbound_kind (Message.MessageType m) && place_order_well_formed m.

Definition is_done (m : Message.t) : bool :=
  match Message.MessageType m with
  | DONE => true
  | _ => false
  end.

(** The order or trade of an engine call carries the channel [events]. *)
Definition carries_events (events : EventChan) (c : EngineCall) : Prop :=
  match c with
  | AddOrder o => Order.events o = Some events
  | ExecuteOrder t => Trade.events t = Some events
  | CancelOrder _ => True
  end.

(** A socket without its log. *)
Definition without_log (s : Socket.t) : Socket.t :=
  Socket.mk (Socket.events s) (Socket.engine s) (Socket.connection s) []
            (Socket.stdout s).

(** ** The inbound loop on pointers *)

(** [s.messagesIn] is a channel of pointers.  [handleMessagesIn] above is the
    loop on a queue without a nil pointer; on a nil pointer the switch on
    [m.MessageType] is a nil dereference. *)
Definition nil_dereference : string :=
  "invalid memory address or nil pointer dereference".

Fixpoint handleMessagesIn_pointers {eng : Engine} {dec : Decoders}
    (queue : list (option Message.t)) : Hub unit :=
  match queue with
  | [] => mret tt
  | None :: _ => panic nil_dereference
  | Some m :: rest => handleMessageIn m;; handleMessagesIn_pointers rest
  end.

(** A pointer the inbound switch handles without a panic. *)
Definition pointer_accepted (x : option Message.t) : bool :=
  match x with
  | Some m => message_accepted m
  | None => false
  end.

(** ** More sample data *)

Definition sample_factory_calls : list FactoryCall :=
  [CallNewOrder tokenA 100 tokenB 50;
   CallNewTrade sample_order 25;
   CallSetExchangeAddress 555;
   CallNewOrderMessage tokenB 7 tokenA 3;
   CallNewCancelOrderMessage sample_order;
   CallNewOrderCancel sample_order;
   CallNewTrade sample_order 1].

Definition sample_events : list Event.t :=
  [Event.mk ORDER_PLACED (OrderPtr sample_order);
   Event.mk ORDER_FILLED (TradePayloadPtr (TradePayload.mk sample_trade));
   Event.mk DONE (JsonPayload JNull);
   Event.mk TRADE_TX_ERROR (TradePtr sample_trade);
   Event.mk ORDER_CANCELED (OrderPtr sample_order)].

Definition sample_frames : list Frame :=
  [inl (Some (CANCEL_ORDER, JObject ∅));
   inl (Some (DONE, JNull));
   inr (CloseError 1000 "websocket: close 1000 (normal)");
   inl (Some (SIGNED_DATA, JObject ∅))].

(** A client that sends the frame [null] between two messages. *)
Definition frames_with_null : list Frame :=
  [inl (Some (CANCEL_ORDER, JObject ∅));
   inl None;
   inl (Some (SIGNED_DATA, JObject ∅))].

(** * Properties of the order factory *)

Lemma uint64_modulus_pos : 0 < uint64_modulus.
Proof. reflexivity. Qed.

Lemma uint64_incr_range (x : Z) : 0 <= uint64_incr x < uint64_modulus.
Proof. apply Z.mod_pos_bound, uint64_modulus_pos. Qed.

Lemma uint64_incr_below_max (x : Z) :
  0 <= x < uint64_modulus - 1 -> uint64_incr x = x + 1.
Proof. intros Hx. apply Z.mod_small. lia. Qed.

Lemma uint64_incr_max : uint64_incr (uint64_modulus - 1) = 0.
Proof. reflexivity. Qed.

Lemma uint64_incr_mod (c k : Z) :
  uint64_incr ((c + k) mod uint64_modulus) = (c + (k + 1)) mod uint64_modulus.
Proof.
  unfold uint64_incr.
  rewrite Z.add_mod_idemp_l by (pose proof uint64_modulus_pos; lia).
  f_equal. lia.
Qed.

Section FactoryFacts.
Context {rnd : RandSource} {sgn : Signing}.

Implicit Types (f : OrderFactory.t Rand) (o : Order.t).
Implicit Types (tokenBuy tokenSell : Token.t) (amountBuy amountSell : Z).

(** What one call of [NewOrder] returns and leaves behind, field by field. *)
Lemma NewOrder_order f tokenBuy amountBuy tokenSell amountSell :
  let o := (NewOrder f tokenBuy amountBuy tokenSell amountSell).1.1 in
  Order.Id o = OrderFactory.CurrentOrderID f /\
  Order.AmountBuy o = amountBuy /\
  Order.AmountSell o = amountSell /\
  Order.Nonce o = (Intn (OrderFactory.NonceGenerator f) 1000).1 /\
  Order.Signature o <> None.
Proof.
  unfold NewOrder. destruct (Intn _ 1000) as [n ng]. cbn.
  repeat split. discriminate.
Qed.

Lemma NewOrder_error f tokenBuy amountBuy tokenSell amountSell :
  (NewOrder f tokenBuy amountBuy tokenSell amountSell).1.2 = None.
Proof. unfold NewOrder. destruct (Intn _ 1000). reflexivity. Qed.

Lemma NewOrder_factory f tokenBuy amountBuy tokenSell amountSell :
  let f' := (NewOrder f tokenBuy amountBuy tokenSell amountSell).2 in
  OrderFactory.OrderNonce f' = uint64_incr (OrderFactory.OrderNonce f) /\
  OrderFactory.CurrentOrderID f' =
    uint64_incr (OrderFactory.CurrentOrderID f) /\
  OrderFactory.TradeNonce f' = OrderFactory.TradeNonce f /\
  OrderFactory.Pair f' = OrderFactory.Pair f /\
  OrderFactory.Wallet f' = OrderFactory.Wallet f /\
  OrderFactory.Exchange f' = OrderFactory.Exchange f /\
  OrderFactory.Params f' = OrderFactory.Params f.
Proof.
  unfold NewOrder. destruct (Intn _ 1000) as [n ng]. cbn. repeat split.
Qed.

Lemma NewTrade_factory f o (amount : Z) :
  let f' := (NewTrade f o amount).2 in
  OrderFactory.TradeNonce f' = uint64_incr (OrderFactory.TradeNonce f) /\
  OrderFactory.OrderNonce f' = OrderFactory.OrderNonce f /\
  OrderFactory.CurrentOrderID f' = OrderFactory.CurrentOrderID f /\
  OrderFactory.Pair f' = OrderFactory.Pair f /\
  OrderFactory.Wallet f' = OrderFactory.Wallet f /\
  OrderFactory.Exchange f' = OrderFactory.Exchange f /\
  OrderFactory.Params f' = OrderFactory.Params f.
Proof.
  unfold NewTrade. destruct (Intn _ 1000) as [n ng]. cbn. repeat split.
Qed.

Lemma NewOrderCancel_factory f o : (NewOrderCancel f o).2 = f.
Proof. reflexivity. Qed.

(** The step of [NewOrders]. *)
Lemma NewOrders_cons f (a : OrderArgs) (calls : list OrderArgs) :
  let '(tokenBuy, amountBuy, tokenSell, amountSell) := a in
  let r := NewOrder f tokenBuy amountBuy tokenSell amountSell in
  NewOrders f (a :: calls) =
    (r.1.1 :: (NewOrders r.2 calls).1, (NewOrders r.2 calls).2).
Proof.
  destruct a as [[[tokenBuy amountBuy] tokenSell] amountSell]. cbn.
  destruct (NewOrder _ _ _ _ _) as [[o e] f1]. cbn.
  destruct (NewOrders f1 calls). reflexivity.
Qed.

(** After the calls, both counters have advanced by their number, modulo
    [2^64]. *)
Lemma NewOrders_counters (calls : list OrderArgs) f :
  0 <= OrderFactory.CurrentOrderID f < uint64_modulus ->
  0 <= OrderFactory.OrderNonce f < uint64_modulus ->
  let f' := (NewOrders f calls).2 in
  OrderFactory.CurrentOrderID f' =
    (OrderFactory.CurrentOrderID f + Z.of_nat (length calls))
      mod uint64_modulus /\
  OrderFactory.OrderNonce f' =
    (OrderFactory.OrderNonce f + Z.of_nat (length calls)) mod uint64_modulus.
Proof.
  revert f. induction calls as [|a calls IH]; intros f Hc Hn.
  - cbn. rewrite !Z.add_0_r, !Z.mod_small; done.
  - pose proof (NewOrders_cons f a calls) as Hstep.
    destruct a as [[[tokenBuy amountBuy] tokenSell] amountSell].
    cbv zeta in Hstep. rewrite Hstep. clear Hstep. cbn [snd].
    pose proof (NewOrder_factory f tokenBuy amountBuy tokenSell amountSell)
      as (Hn1 & Hc1 & _).
    cbv zeta in Hn1, Hc1.
    specialize (IH (NewOrder f tokenBuy amountBuy tokenSell amountSell).2).
    cbv zeta in IH.
    destruct IH as [IHc IHn];
      [rewrite Hc1; apply uint64_incr_range
      |rewrite Hn1; apply uint64_incr_range|].
    rewrite IHc, IHn, Hn1, Hc1. unfold uint64_incr.
    rewrite !Z.add_mod_idemp_l by (pose proof uint64_modulus_pos; lia).
    rewrite length_cons, Nat2Z.inj_succ.
    split; f_equal; lia.
Qed.

(** The identifiers handed out by the calls are consecutive modulo [2^64],
    from the factory's current one. *)
Lemma NewOrders_ids (calls : list OrderArgs) f :
  0 <= OrderFactory.CurrentOrderID f < uint64_modulus ->
  Order.Id <$> (NewOrders f calls).1 =
    (fun k => (OrderFactory.CurrentOrderID f + Z.of_nat k) mod uint64_modulus)
      <$> seq 0 (length calls).
Proof.
  revert f. induction calls as [|a calls IH]; intros f Hc; [done|].
  pose proof (NewOrders_cons f a calls) as Hstep.
  destruct a as [[[tokenBuy amountBuy] tokenSell] amountSell].
  cbv zeta in Hstep. rewrite Hstep. clear Hstep. cbn [fst].
  pose proof (NewOrder_order f tokenBuy amountBuy tokenSell amountSell)
    as (Hid & _).
  pose proof (NewOrder_factory f tokenBuy amountBuy tokenSell amountSell)
    as (_ & Hcur & _).
  cbv zeta in Hid, Hcur.
  rewrite length_cons. cbn [seq]. rewrite !fmap_cons, Hid.
  f_equal.
  - rewrite Z.add_0_r, Z.mod_small; done.
  - rewrite IH, Hcur by (rewrite Hcur; apply uint64_incr_range).
    rewrite <- fmap_S_seq, <- list_fmap_compose.
    apply list_fmap_ext. intros _ k _. cbn.
    unfold uint64_incr.
    rewrite Z.add_mod_idemp_l by (pose proof uint64_modulus_pos; lia).
    f_equal. lia.
Qed.

End FactoryFacts.

Section FactoryClaims.
Context {rnd : RandSource} {sgn : Signing}.

Implicit Types (f : OrderFactory.t Rand) (o : Order.t).
Implicit Types (tokenBuy tokenSell : Token.t) (amountBuy amountSell : Z).

(** A factory just returned by [NewOrderFactory] has its three counters at
    zero. *)
Lemma NewOrderFactory_counters dial config_Exchange ng p w f :
  NewOrderFactory dial config_Exchange ng p w = Some f ->
  OrderFactory.CurrentOrderID f = 0 /\
  OrderFactory.OrderNonce f = 0 /\
  OrderFactory.TradeNonce f = 0.
Proof.
  unfold NewOrderFactory. destruct dial as [client|e]; [|discriminate].
  intros [= <-]. done.
Qed.

(** C5, amended.  For at most [2^64] sequential calls of [NewOrder] on a
    factory fresh from [NewOrderFactory], the identifiers of the orders are
    exactly 0, 1, ..., N-1, so no two of the orders share an identifier, and
    after the first [k] of the calls [OrderNonce] is [k] modulo [2^64]. *)
Theorem NewOrders_fresh_ids dial config_Exchange ng p w f
    (calls : list OrderArgs) :
  NewOrderFactory dial config_Exchange ng p w = Some f ->
  Z.of_nat (length calls) <= uint64_modulus ->
  Order.Id <$> (NewOrders f calls).1 = Z.of_nat <$> seq 0 (length calls) /\
  NoDup (Order.Id <$> (NewOrders f calls).1) /\
  forall k : nat, (k <= length calls)%nat ->
    OrderFactory.OrderNonce (NewOrders f (take k calls)).2 =
      Z.of_nat k mod uint64_modulus.
Proof.
  intros Hnew Hlen.
  destruct (NewOrderFactory_counters _ _ _ _ _ _ Hnew) as (Hc & Hn & _).
  assert (Hids : Order.Id <$> (NewOrders f calls).1 =
                 Z.of_nat <$> seq 0 (length calls)).
  { rewrite NewOrders_ids by (rewrite Hc; done).
    apply list_fmap_ext. intros i k Hk.
    apply lookup_seq in Hk as [-> Hk].
    rewrite Hc, Z.add_0_l. apply Z.mod_small. lia. }
  split; [exact Hids|]. split.
  - rewrite Hids. apply NoDup_fmap_2; [|apply NoDup_seq].
    intros i j. apply Nat2Z.inj.
  - intros k Hk.
    destruct (NewOrders_counters (take k calls) f) as [_ Hnonce];
      [rewrite Hc; done|rewrite Hn; done|].
    cbv zeta in Hnonce.
    rewrite Hnonce, Hn, Z.add_0_l, length_take, Nat.min_l by done.
    reflexivity.
Qed.

(** C7.  On a factory whose [CurrentOrderID] is 0, the order built to buy 100
    of token A for 50 of token B has identifier 0, buys 100, sells 50 and
    carries a signature; the order of the next call on the same factory has
    identifier 1. *)
Theorem NewOrder_first_two_orders f (A B : Token.t) :
  OrderFactory.CurrentOrderID f = 0 ->
  let first := NewOrder f A 100 B 50 in
  Order.Id first.1.1 = 0 /\
  Order.AmountBuy first.1.1 = 100 /\
  Order.AmountSell first.1.1 = 50 /\
  Order.Signature first.1.1 <> None /\
  forall tokenBuy amountBuy tokenSell amountSell,
    Order.Id (NewOrder first.2 tokenBuy amountBuy tokenSell amountSell).1.1
      = 1.
Proof.
  intros Hc first.
  destruct (NewOrder_order f A 100 B 50) as (Hid & Hbuy & Hsell & _ & Hsig).
  destruct (NewOrder_factory f A 100 B 50) as (_ & Hcur & _).
  cbv zeta in Hid, Hbuy, Hsell, Hsig, Hcur.
  fold first in Hid, Hbuy, Hsell, Hsig, Hcur.
  repeat split; try done; [congruence|].
  intros tokenBuy amountBuy tokenSell amountSell.
  destruct (NewOrder_order first.2 tokenBuy amountBuy tokenSell amountSell)
    as (-> & _).
  rewrite Hcur, Hc. reflexivity.
Qed.

(** C9.  The nonce of an order built by [NewOrder] and the trade nonce of a
    trade built by [NewTrade] lie between 0 included and 1000 excluded. *)
Theorem NewOrder_NewTrade_nonce_range f tokenBuy amountBuy tokenSell
    amountSell o (amount : Z) :
  0 <= Order.Nonce (NewOrder f tokenBuy amountBuy tokenSell amountSell).1.1
    < 1000 /\
  0 <= Trade.TradeNonce (NewTrade f o amount).1.1 < 1000.
Proof.
  pose proof (Intn_range (OrderFactory.NonceGenerator f) 1000) as Hdraw.
  split.
  - destruct (NewOrder_order f tokenBuy amountBuy tokenSell amountSell)
      as (_ & _ & _ & -> & _).
    apply Hdraw. done.
  - unfold NewTrade. destruct (Intn _ 1000) as [n ng]. cbn in *.
    unfold big_NewInt. apply Hdraw. done.
Qed.

(** C10, amended.  [NewOrder] adds one, modulo [2^64], to [OrderNonce] and
    to [CurrentOrderID], leaves [TradeNonce] and draws once from
    [NonceGenerator]; [NewTrade] adds one, modulo [2^64], to [TradeNonce],
    leaves [OrderNonce] and [CurrentOrderID] and draws once from
    [NonceGenerator]; [NewOrderCancel] leaves the whole factory as it is;
    none of the three changes [Pair], [Wallet], [Exchange], [Params] or
    [Client]. *)
Theorem factory_operations_frame f tokenBuy amountBuy tokenSell amountSell o
    (amount : Z) :
  let f1 := (NewOrder f tokenBuy amountBuy tokenSell amountSell).2 in
  let f2 := (NewTrade f o amount).2 in
  let f3 := (NewOrderCancel f o).2 in
  (OrderFactory.OrderNonce f1 = (OrderFactory.OrderNonce f + 1) mod 2 ^ 64 /\
   OrderFactory.CurrentOrderID f1 =
     (OrderFactory.CurrentOrderID f + 1) mod 2 ^ 64 /\
   OrderFactory.TradeNonce f1 = OrderFactory.TradeNonce f /\
   OrderFactory.NonceGenerator f1 =
     (Intn (OrderFactory.NonceGenerator f) 1000).2) /\
  (OrderFactory.TradeNonce f2 = (OrderFactory.TradeNonce f + 1) mod 2 ^ 64 /\
   OrderFactory.OrderNonce f2 = OrderFactory.OrderNonce f /\
   OrderFactory.CurrentOrderID f2 = OrderFactory.CurrentOrderID f /\
   OrderFactory.NonceGenerator f2 =
     (Intn (OrderFactory.NonceGenerator f) 1000).2) /\
  f3 = f /\
  Forall (fun f' =>
            OrderFactory.Pair f' = OrderFactory.Pair f /\
            OrderFactory.Wallet f' = OrderFactory.Wallet f /\
            OrderFactory.Exchange f' = OrderFactory.Exchange f /\
            OrderFactory.Params f' = OrderFactory.Params f /\
            OrderFactory.Client f' = OrderFactory.Client f)
         [f1; f2; f3].
Proof.
  intros f1 f2 f3.
  assert (H3 : f3 = f) by apply NewOrderCancel_factory.
  rewrite H3. subst f1 f2. unfold NewOrder, NewTrade.
  destruct (Intn (OrderFactory.NonceGenerator f) 1000) as [n ng].
  cbn. unfold uint64_incr, uint64_modulus.
  repeat split; repeat constructor; done.
Qed.

End FactoryClaims.

(** ** The factory run on the stand-ins *)

Lemma NewOrders_fresh_ids_witness :
  NewOrderFactory (rnd := lcg) (inl "ws://127.0.0.1:8546") 99 2024
    sample_pair sample_wallet = Some sample_factory /\
  Z.of_nat (length sample_calls) <= uint64_modulus /\
  Order.Id <$>
    (NewOrders (rnd := lcg) (sgn := toy_signing) sample_factory
       sample_calls).1 = [0; 1; 2] /\
  NoDup (Order.Id <$>
    (NewOrders (rnd := lcg) (sgn := toy_signing) sample_factory
       sample_calls).1) /\
  forall k : nat, (k <= length sample_calls)%nat ->
    OrderFactory.OrderNonce
      (NewOrders (rnd := lcg) (sgn := toy_signing) sample_factory
         (take k sample_calls)).2 = Z.of_nat k mod uint64_modulus.
Proof.
  split; [reflexivity|]. split; [vm_compute; discriminate|].
  apply (NewOrders_fresh_ids (rnd := lcg) (sgn := toy_signing)
           (inl "ws://127.0.0.1:8546") 99 2024 sample_pair sample_wallet
           sample_factory sample_calls);
    [reflexivity | vm_compute; discriminate].
Defined.

(** C5 as stated fails once the [uint64] counter has wrapped around: of
    [2^64 + 1] orders built in sequence by a fresh factory, the first and the
    last both have identifier 0. *)
Lemma NewOrders_ids_repeat_after_wrap :
  let ids :=
    Order.Id <$>
      (NewOrders (rnd := lcg) (sgn := toy_signing) sample_factory
         calls_past_wrap).1 in
  ids !! 0%nat = Some 0 /\
  ids !! Z.to_nat uint64_modulus = Some 0 /\
  ~ NoDup ids /\
  ids <> Z.of_nat <$> seq 0 (length calls_past_wrap).
Proof.
  intros ids.
  assert (Hids : ids =
    (fun k => Z.of_nat k mod uint64_modulus)
      <$> seq 0 (S (Z.to_nat uint64_modulus))).
  { unfold ids, calls_past_wrap.
    rewrite (NewOrders_ids (rnd := lcg) (sgn := toy_signing))
      by (split; [reflexivity|apply uint64_modulus_pos]).
    rewrite length_replicate. reflexivity. }
  assert (Hlen : length calls_past_wrap = S (Z.to_nat uint64_modulus))
    by apply length_replicate.
  rewrite Hlen. clearbody ids.
  assert (HN : Z.of_nat (Z.to_nat uint64_modulus) = uint64_modulus)
    by (apply Z2Nat.id; done).
  revert Hids HN. generalize (Z.to_nat uint64_modulus). intros N Hids HN.
  assert (H0 : ids !! 0%nat = Some 0).
  { rewrite Hids, list_lookup_fmap, lookup_seq_lt by lia. reflexivity. }
  assert (H1 : ids !! N = Some 0).
  { rewrite Hids, list_lookup_fmap, lookup_seq_lt by lia. cbn [fmap option_fmap option_map].
    rewrite Nat.add_0_l, HN, Z_mod_same_full. reflexivity. }
  assert (HNpos : N <> 0%nat).
  { intros ->. discriminate HN. }
  split; [exact H0|]. split; [exact H1|]. split.
  - intros Hnodup. apply HNpos. symmetry.
    exact (NoDup_lookup _ _ _ _ Hnodup H0 H1).
  - intros Heq. rewrite Heq, list_lookup_fmap, lookup_seq_lt in H1 by lia.
    cbn [fmap option_fmap option_map] in H1. rewrite Nat.add_0_l, HN in H1.
    discriminate H1.
Qed.

Lemma NewOrder_first_two_orders_witness :
  OrderFactory.CurrentOrderID sample_factory = 0 /\
  let first :=
    NewOrder (rnd := lcg) (sgn := toy_signing) sample_factory tokenA 100
      tokenB 50 in
  Order.Id first.1.1 = 0 /\
  Order.AmountBuy first.1.1 = 100 /\
  Order.AmountSell first.1.1 = 50 /\
  Order.Signature first.1.1 <> None /\
  forall tokenBuy amountBuy tokenSell amountSell,
    Order.Id
      (NewOrder (rnd := lcg) (sgn := toy_signing) first.2 tokenBuy amountBuy
         tokenSell amountSell).1.1 = 1.
Proof.
  split; [reflexivity|].
  apply (NewOrder_first_two_orders (rnd := lcg) (sgn := toy_signing)
           sample_factory tokenA tokenB).
  reflexivity.
Defined.

(** What [NewOrderMessage] returns: a [PLACE_ORDER] message around the order
    that [NewOrder] builds from [amountBuy] given twice. *)
Lemma NewOrderMessage_unfold {rnd : RandSource} {sgn : Signing}
    (f : OrderFactory.t Rand) (tokenBuy : Token.t) (amountBuy : Z)
    (tokenSell : Token.t) (amountSell : Z) :
  let built := NewOrder f tokenBuy amountBuy tokenSell amountBuy in
  NewOrderMessage f tokenBuy amountBuy tokenSell amountSell =
    ((Some (Message.mk PLACE_ORDER
              (OrderPayloadPtr (OrderPayload.mk built.1.1))),
      Some built.1.1, None), built.2) /\
  Order.AmountBuy built.1.1 = amountBuy /\
  Order.AmountSell built.1.1 = amountBuy.
Proof.
  intros built.
  destruct (NewOrder_order f tokenBuy amountBuy tokenSell amountBuy)
    as (_ & Hbuy & Hsell & _).
  pose proof (NewOrder_error f tokenBuy amountBuy tokenSell amountBuy) as He.
  cbv zeta in Hbuy, Hsell. fold built in Hbuy, Hsell, He.
  split; [|done].
  unfold NewOrderMessage. fold built.
  destruct built as [[o err] f1]. cbn in He. subst err. reflexivity.
Qed.

(** C2.  Asked for a message that buys 100 and sells 50, [NewOrderMessage]
    wraps an order that sells 100, which is not the order [NewOrder] builds
    from the same factory and the same arguments. *)
Theorem NewOrderMessage_sells_amountBuy :
  let built :=
    NewOrder (rnd := lcg) (sgn := toy_signing) sample_factory tokenA 100
      tokenB 50 in
  exists o : Order.t,
    (NewOrderMessage (rnd := lcg) (sgn := toy_signing) sample_factory tokenA
       100 tokenB 50).1 =
      (Some (Message.mk PLACE_ORDER (OrderPayloadPtr (OrderPayload.mk o))),
       Some o, None) /\
    Order.AmountBuy o = 100 /\
    Order.AmountSell o = 100 /\
    Order.AmountSell built.1.1 = 50 /\
    o <> built.1.1.
Proof.
  intros built.
  destruct (NewOrderMessage_unfold (rnd := lcg) (sgn := toy_signing)
              sample_factory tokenA 100 tokenB 50) as (Hmsg & Hbuy & Hsell).
  eexists. rewrite Hmsg. split; [reflexivity|].
  split; [exact Hbuy|]. split; [exact Hsell|].
  split; [reflexivity|].
  intros Heq. apply (f_equal Order.AmountSell) in Heq.
  rewrite Hsell in Heq. discriminate Heq.
Qed.

(** * Properties of the socket *)

Ltac hub_run :=
  unfold send, WriteJSON, engine_call, get_events, log_if_error, log_Printf,
    fmt_Printf, panic;
  unfold mbind, mret, Hub_bind, Hub_ret;
  cbn.

Ltac send_run :=
  unfold handleMessageOut, sendOrderPlaced, sendOrderFilled,
    sendOrderPartiallyFilled, sendOrderCanceled, sendOrderExecuted,
    sendOrderTxSuccess, sendOrderTxError, sendTradeExecuted,
    sendTradeTxSuccess, sendTradeTxError;
  hub_run.

Section SocketFacts.
Context {eng : Engine} {conn : Connection} {dec : Decoders}.

Implicit Types (s : Socket.t) (p : Payload) (m : Message.t) (e : Event.t).

(** [placeOrder] on a payload with a nested [order] object: one [AddOrder]
    call, no panic. *)
Lemma placeOrder_with_order p s :
  has_order_object p = true ->
  exists (o : Order.t) s',
    placeOrder p s = Returns tt s' /\
    Socket.engine s' = Socket.engine s ++ [AddOrder o] /\
    Socket.connection s' = Socket.connection s.
Proof.
  destruct p as [[| | | | |fields]| | | | |]; try discriminate. cbn.
  destruct (fields !! "order") as [[| | | | |inner]|] eqn:Hin;
    try discriminate.
  intros _. unfold placeOrder, mbind, Hub_bind. cbn [assert_map].
  unfold mret, Hub_ret, index. rewrite Hin. cbn [default].
  hub_run.
  destruct (engine_reply _ _); cbn; eauto.
Qed.

(** [placeOrder] on any other payload: a failed type assertion, before the
    engine is reached. *)
Lemma placeOrder_without_order p s :
  has_order_object p = false ->
  placeOrder p s = Panics interface_conversion s.
Proof.
  destruct p as [[| | | | |fields]| | | | |]; try reflexivity. cbn.
  unfold placeOrder, mbind, Hub_bind. cbn [assert_map].
  unfold mret, Hub_ret, index.
  destruct (fields !! "order") as [[| | | | |inner]|]; try discriminate;
    reflexivity.
Qed.

(** [cancelOrder] and [executeOrder] call the engine once, whatever the
    decoder reports. *)
Lemma cancelOrder_engine p s :
  exists s',
    cancelOrder p s = Returns tt s' /\
    Socket.engine s' =
      Socket.engine s ++
        [CancelOrder
           (OrderCancelPayload.OrderCancel
              (DecodeOrderCancelPayload NewOrderCancelPayload p).1)] /\
    Socket.connection s' = Socket.connection s.
Proof.
  unfold cancelOrder.
  destruct (DecodeOrderCancelPayload _ p) as [ocp [err|]]; hub_run;
    destruct (engine_reply _ _); cbn; eauto.
Qed.

Lemma executeOrder_engine p s :
  exists s',
    executeOrder p s = Returns tt s' /\
    Socket.engine s' =
      Socket.engine s ++
        [ExecuteOrder
           (Trade.set_events (Some (Socket.events s))
              (TradePayload.Trade (DecodeTradePayload NewTradePayload p).1))]
    /\ Socket.connection s' = Socket.connection s.
Proof.
  unfold executeOrder.
  destruct (DecodeTradePayload _ p) as [tp [err|]]; hub_run;
    destruct (engine_reply _ _); cbn; eauto.
Qed.

(** One turn of the inbound loop on a message of an accepted kind whose
    [PLACE_ORDER] payload, if any, has its [order] object. *)
Lemma handleMessageIn_accepted m s :
  inbound_kind (Message.MessageType m) = true ->
  place_order_well_formed m = true ->
  exists s',
    handleMessageIn m s = Returns tt s' /\
    op_of_call <$> Socket.engine s' =
      (op_of_call <$> Socket.engine s) ++
        option_list (forwarded_to (Message.MessageType m)) /\
    Socket.connection s' = Socket.connection s.
Proof.
  destruct m as [kind p]. unfold place_order_well_formed, handleMessageIn.
  cbn [Message.MessageType Message.Payload].
  destruct kind; try discriminate; intros _ Hwf; cbn [forwarded_to option_list].
  - destruct (placeOrder_with_order p s Hwf) as (o & s' & Hrun & He & Hc).
    exists s'. by rewrite Hrun, He, Hc, fmap_app.
  - destruct (cancelOrder_engine p s) as (s' & Hrun & He & Hc).
    exists s'. by rewrite Hrun, He, Hc, fmap_app.
  - destruct (executeOrder_engine p s) as (s' & Hrun & He & Hc).
    exists s'. by rewrite Hrun, He, Hc, fmap_app.
  - exists s. by rewrite app_nil_r.
Qed.

(** One turn of the inbound loop on a message of any other kind. *)
Lemma handleMessageIn_unknown m s :
  inbound_kind (Message.MessageType m) = false ->
  handleMessageIn m s = Panics "Unknown message type" s.
Proof.
  destruct m as [kind p]. unfold handleMessageIn. cbn.
  destruct kind; try discriminate; reflexivity.
Qed.

End SocketFacts.

Section SocketClaims.
Context {eng : Engine} {conn : Connection} {dec : Decoders}.

Implicit Types (s : Socket.t) (p : Payload) (m : Message.t) (e : Event.t).





(** C3.  A [PLACE_ORDER] message whose payload is the empty object stops the
    inbound loop with the panic of a failed type assertion; the engine has
    not been called. *)
Theorem placeOrder_empty_payload_panics s :
  handleMessagesIn [Message.mk PLACE_ORDER (JsonPayload (JObject ∅))] s =
    Panics interface_conversion s.
Proof.
  cbn [handleMessagesIn]. unfold mbind, Hub_bind, handleMessageIn.
  cbn [Message.MessageType Message.Payload].
  by rewrite placeOrder_without_order.
Qed.

(** C4.  When the decoder of a [CANCEL_ORDER] or of a [SIGNED_DATA] payload
    reports an error, the error is logged and the engine is called all the
    same, with the object the decoder was filling. *)
Theorem decode_error_reaches_engine (p1 p2 : Payload) s
    (ocp : OrderCancelPayload.t) (tp : TradePayload.t) (e1 e2 : Error) :
  DecodeOrderCancelPayload NewOrderCancelPayload p1 = (ocp, Some e1) ->
  DecodeTradePayload NewTradePayload p2 = (tp, Some e2) ->
  let s1 := socket_after (cancelOrder p1 s) in
  let s2 := socket_after (executeOrder p2 s) in
  (Socket.engine s1 =
     Socket.engine s ++ [CancelOrder (OrderCancelPayload.OrderCancel ocp)] /\
   ("Error: %v", ErrorArg e1) ∈ Socket.log s1) /\
  (Socket.engine s2 =
     Socket.engine s ++
       [ExecuteOrder
          (Trade.set_events (Some (Socket.events s)) (TradePayload.Trade tp))]
   /\ ("Error: %v", ErrorArg e2) ∈ Socket.log s2).
Proof.
  intros Hoc Htp. unfold cancelOrder, executeOrder. rewrite Hoc, Htp.
  hub_run. split.
  - destruct (engine_reply _ _); cbn; (split; [reflexivity|]);
      rewrite ?elem_of_app, !list_elem_of_singleton; auto.
  - destruct (engine_reply _ _); cbn; (split; [reflexivity|]);
      rewrite ?elem_of_app, !list_elem_of_singleton; auto.
Qed.

(** The outbound dispatch follows the table for every kind but the two
    transaction errors: one message, of the kind of the event, around the
    entity of the event. *)
Lemma handleMessageOut_table e s (kind : MessageType) :
  outbound_kind (Event.eventType e) = Some kind ->
  kind <> ORDER_TX_ERROR ->
  kind <> TRADE_TX_ERROR ->
  payload_matches (Event.eventType e) (Event.payload e) = true ->
  exists s',
    handleMessageOut e s = Returns tt s' /\
    Socket.connection s' =
      Socket.connection s ++ [Message.mk kind (wrapped (Event.payload e))] /\
    Socket.engine s' = Socket.engine s.
Proof.
  destruct e as [k payload]. cbn [Event.eventType Event.payload].
  intros Hkind Horder Htrade Hmatch.
  destruct k; try discriminate; injection Hkind as <-; try congruence;
    destruct payload; try discriminate;
    send_run; destruct (WriteJSON_reply _ _); cbn; eauto.
Qed.

(** C1.  An [ORDER_TX_ERROR] event is answered by one message of kind
    [ORDER_TX_SUCCESS] around its order, and a [TRADE_TX_ERROR] event by one
    message of kind [TRADE_TX_SUCCESS] around its trade. *)
Theorem tx_error_events_sent_as_success (o : Order.t) (t : Trade.t) s :
  Socket.connection
    (socket_after (handleMessageOut (Event.mk ORDER_TX_ERROR (OrderPtr o)) s))
  = Socket.connection s ++
      [Message.mk ORDER_TX_SUCCESS (OrderPayloadPtr (OrderPayload.mk o))] /\
  Socket.connection
    (socket_after (handleMessageOut (Event.mk TRADE_TX_ERROR (TradePtr t)) s))
  = Socket.connection s ++
      [Message.mk TRADE_TX_SUCCESS (TradePayloadPtr (TradePayload.mk t))].
Proof.
  send_run. split; destruct (WriteJSON_reply _ _); reflexivity.
Qed.

(** C8, amended.  On one [ORDER_FILLED] event whose payload is the trade
    payload, the wrapper that holds the trade, the outbound loop writes
    exactly one message to the connection, of kind [ORDER_FILLED], whose
    payload is that same trade payload, and returns to its receive. *)
Theorem order_filled_event_sent_once (tp : TradePayload.t) s :
  exists s',
    handleMessagesOut [Event.mk ORDER_FILLED (TradePayloadPtr tp)] s =
      Returns tt s' /\
    Socket.connection s' =
      Socket.connection s ++ [Message.mk ORDER_FILLED (TradePayloadPtr tp)].
Proof.
  cbn [handleMessagesOut]. send_run.
  destruct (WriteJSON_reply _ _); cbn; eauto.
Qed.

End SocketClaims.

(** ** The socket run on the stand-ins *)



(** C8 as stated fails on an [ORDER_FILLED] event that carries the trade
    itself: the assertion of the payload to a trade payload fails, the loop
    stops there and no message is written. *)
Lemma order_filled_bare_trade_not_sent :
  let after :=
    handleMessagesOut (conn := open_connection)
      [Event.mk ORDER_FILLED (TradePtr sample_trade)] sample_socket in
  panicked after = true /\
  Socket.connection (socket_after after) = [] /\
  ~ exists s',
      after = Returns tt s' /\
      Socket.connection s' =
        Socket.connection sample_socket ++
          [Message.mk ORDER_FILLED
             (TradePayloadPtr (TradePayload.mk sample_trade))].
Proof.
  split; [reflexivity|]. split; [reflexivity|].
  intros (s' & Hrun & _). discriminate Hrun.
Qed.

(** C10 as stated fails on the nonce generator: [NewOrder] and [NewTrade]
    draw from it, and leave it in another state. *)
Lemma NewOrder_NewTrade_advance_generator :
  OrderFactory.NonceGenerator
    (NewOrder (rnd := lcg) (sgn := toy_signing) sample_factory tokenA 100
       tokenB 50).2 <> OrderFactory.NonceGenerator sample_factory /\
  OrderFactory.NonceGenerator
    (NewTrade (rnd := lcg) (sgn := toy_signing) sample_factory sample_order
       25).2 <> OrderFactory.NonceGenerator sample_factory.
Proof. split; vm_compute; discriminate. Qed.

Lemma decode_error_reaches_engine_witness :
  let ocp := OrderCancelPayload.mk OrderCancel.zero in
  let tp := TradePayload.mk Trade.zero in
  let e := "payload is not an object" in
  let s1 :=
    socket_after
      (cancelOrder (eng := accepting_engine) (dec := toy_decoders)
         undecodable sample_socket) in
  let s2 :=
    socket_after
      (executeOrder (eng := accepting_engine) (dec := toy_decoders)
         undecodable sample_socket) in
  DecodeOrderCancelPayload (Decoders := toy_decoders)
    (NewOrderCancelPayload (Decoders := toy_decoders)) undecodable =
    (ocp, Some e) /\
  DecodeTradePayload (Decoders := toy_decoders)
    (NewTradePayload (Decoders := toy_decoders)) undecodable = (tp, Some e) /\
  (Socket.engine s1 = [CancelOrder OrderCancel.zero] /\
   ("Error: %v", ErrorArg e) ∈ Socket.log s1) /\
  (Socket.engine s2 =
     [ExecuteOrder (Trade.set_events (Some 1%positive) Trade.zero)] /\
   ("Error: %v", ErrorArg e) ∈ Socket.log s2).
Proof.
  intros ocp tp e s1 s2.
  split; [reflexivity|]. split; [reflexivity|].
  apply (decode_error_reaches_engine (eng := accepting_engine)
           (dec := toy_decoders) undecodable undecodable sample_socket ocp tp
           e e);
    reflexivity.
Defined.

(** ** Sample runs *)

Example sample_orders_ids_and_nonces :
  (fun o => (Order.Id o, Order.Nonce o)) <$>
    (NewOrders (rnd := lcg) (sgn := toy_signing) sample_factory
       sample_calls).1 = [(0, 2); (1, 326); (2, 734)].
Proof. reflexivity. Qed.

Example sample_factory_after_three_orders :
  let f :=
    (NewOrders (rnd := lcg) (sgn := toy_signing) sample_factory
       sample_calls).2 in
  (OrderFactory.CurrentOrderID f, OrderFactory.OrderNonce f,
   OrderFactory.TradeNonce f) = (3, 3, 0).
Proof. reflexivity. Qed.

Example sample_trade_nonce :
  let r :=
    NewTrade (rnd := lcg) (sgn := toy_signing) sample_factory sample_order
      25 in
  (Trade.OrderHash r.1.1, Trade.TradeNonce r.1.1, Trade.Amount r.1.1,
   OrderFactory.TradeNonce r.2) = (162, 2, 25, 1).
Proof. reflexivity. Qed.

Example sample_inbound_run :
  let after :=
    socket_after
      (handleMessagesIn (eng := rejecting_engine) (dec := toy_decoders)
         sample_queue sample_socket) in
  op_of_call <$> Socket.engine after =
    [OpAddOrder; OpCancelOrder; OpExecuteOrder; OpAddOrder] /\
  length (Socket.log after) = 4%nat /\
  Socket.connection after = [].
Proof. repeat split. Qed.

Example sample_inbound_unknown_kind :
  handleMessagesIn (eng := accepting_engine) (dec := toy_decoders)
    [done_message; Message.mk ORDER_PLACED (OrderPtr sample_order);
     cancel_order_message] sample_socket =
    Panics "Unknown message type" sample_socket.
Proof. reflexivity. Qed.

Example sample_outbound_run :
  let events :=
    [Event.mk ORDER_PLACED (OrderPtr sample_order);
     Event.mk ORDER_FILLED (TradePayloadPtr (TradePayload.mk sample_trade));
     Event.mk DONE (JsonPayload JNull);
     Event.mk TRADE_TX_ERROR (TradePtr sample_trade)] in
  Message.MessageType <$>
    Socket.connection
      (socket_after
         (handleMessagesOut (conn := open_connection) events sample_socket))
  = [ORDER_PLACED; ORDER_FILLED; TRADE_TX_SUCCESS].
Proof. reflexivity. Qed.

Example sample_outbound_bare_trade_panics :
  handleMessagesOut (conn := open_connection)
    [Event.mk ORDER_FILLED (TradePtr sample_trade)] sample_socket =
    Panics interface_conversion
      (Socket.mk 1%positive [] [] [("Received an event", NoArg)] []).
Proof. reflexivity. Qed.

(** * Further properties of the order factory *)

Section FactoryCalls.
Context {rnd : RandSource} {sgn : Signing}.

Implicit Types (f : OrderFactory.t Rand) (o : Order.t) (c : FactoryCall).
Implicit Types (calls : list FactoryCall).

Lemma NewOrderMessage_factory f tokenBuy amountBuy tokenSell amountSell :
  (NewOrderMessage f tokenBuy amountBuy tokenSell amountSell).2 =
    (NewOrder f tokenBuy amountBuy tokenSell amountBuy).2.
Proof.
  destruct (NewOrderMessage_unfold f tokenBuy amountBuy tokenSell amountSell)
    as [-> _].
  reflexivity.
Qed.

Lemma NewOrder_Client f tokenBuy amountBuy tokenSell amountSell :
  OrderFactory.Client (NewOrder f tokenBuy amountBuy tokenSell amountSell).2 =
    OrderFactory.Client f.
Proof. unfold NewOrder. destruct (Intn _ 1000). reflexivity. Qed.

Lemma NewTrade_Client f o (amount : Z) :
  OrderFactory.Client (NewTrade f o amount).2 = OrderFactory.Client f.
Proof. unfold NewTrade. destruct (Intn _ 1000). reflexivity. Qed.

(** What one call does to the fields of the factory. *)
Lemma call_factory_fields f c :
  let f' := call_factory f c in
  OrderFactory.CurrentOrderID f' =
    (if builds_order c then uint64_incr (OrderFactory.CurrentOrderID f)
     else OrderFactory.CurrentOrderID f) /\
  OrderFactory.OrderNonce f' =
    (if builds_order c then uint64_incr (OrderFactory.OrderNonce f)
     else OrderFactory.OrderNonce f) /\
  OrderFactory.TradeNonce f' =
    (if builds_trade c then uint64_incr (OrderFactory.TradeNonce f)
     else OrderFactory.TradeNonce f) /\
  OrderFactory.Exchange f' =
    default (OrderFactory.Exchange f) (exchange_set c) /\
  OrderFactory.Pair f' = OrderFactory.Pair f /\
  OrderFactory.Wallet f' = OrderFactory.Wallet f /\
  OrderFactory.Params f' = OrderFactory.Params f /\
  OrderFactory.Client f' = OrderFactory.Client f.
Proof.
  destruct c as [tb ab ts az|tb ab ts az|o amount|o|o|exchange];
    cbn [call_factory builds_order builds_trade exchange_set default].
  - destruct (NewOrder_factory f tb ab ts az) as (? & ? & ? & ? & ? & ? & ?).
    pose proof (NewOrder_Client f tb ab ts az). done.
  - rewrite NewOrderMessage_factory.
    destruct (NewOrder_factory f tb ab ts ab) as (? & ? & ? & ? & ? & ? & ?).
    pose proof (NewOrder_Client f tb ab ts ab). done.
  - destruct (NewTrade_factory f o amount) as (? & ? & ? & ? & ? & ? & ?).
    pose proof (NewTrade_Client f o amount). done.
  - done.
  - done.
  - done.
Qed.

Lemma call_all_snoc f calls c :
  call_all f (calls ++ [c]) = call_factory (call_all f calls) c.
Proof. unfold call_all. by rewrite foldl_app. Qed.

Lemma count_calls_snoc (test : FactoryCall -> bool) calls c :
  count_calls test (calls ++ [c]) =
    count_calls test calls + (if test c then 1 else 0).
Proof.
  unfold count_calls. rewrite List.filter_app, length_app. cbn [List.filter].
  destruct (test c); cbn [length]; lia.
Qed.

Lemma uint64_incr_shift (c k : Z) :
  uint64_incr ((c + k) mod uint64_modulus) = (c + (k + 1)) mod uint64_modulus.
Proof. apply uint64_incr_mod. Qed.

(** The three counters after a sequence of calls. *)
Lemma call_all_counters_mod f calls :
  0 <= OrderFactory.CurrentOrderID f < uint64_modulus ->
  0 <= OrderFactory.OrderNonce f < uint64_modulus ->
  0 <= OrderFactory.TradeNonce f < uint64_modulus ->
  let f' := call_all f calls in
  OrderFactory.CurrentOrderID f' =
    (OrderFactory.CurrentOrderID f + count_calls builds_order calls)
      mod uint64_modulus /\
  OrderFactory.OrderNonce f' =
    (OrderFactory.OrderNonce f + count_calls builds_order calls)
      mod uint64_modulus /\
  OrderFactory.TradeNonce f' =
    (OrderFactory.TradeNonce f + count_calls builds_trade calls)
      mod uint64_modulus.
Proof.
  intros Hc Hn Ht. induction calls as [|c calls IH] using rev_ind.
  - cbn. unfold count_calls. cbn. rewrite !Z.add_0_r, !Z.mod_small; done.
  - cbv zeta in *. rewrite call_all_snoc, !count_calls_snoc.
    destruct (call_factory_fields (call_all f calls) c)
      as (-> & -> & -> & _).
    destruct IH as (-> & -> & ->).
    destruct (builds_order c), (builds_trade c);
      rewrite ?uint64_incr_shift, ?Z.add_0_r; done.
Qed.

(** X1.  Through any sequence of calls of the methods of a factory whose
    counters are in the [uint64] range, [CurrentOrderID] and [OrderNonce]
    advance by the number of calls of [NewOrder] and [NewOrderMessage], and
    [TradeNonce] by the number of calls of [NewTrade], modulo [2^64]; the
    other methods leave the counters alone. *)
Theorem call_all_counters f calls :
  0 <= OrderFactory.CurrentOrderID f < uint64_modulus ->
  0 <= OrderFactory.OrderNonce f < uint64_modulus ->
  0 <= OrderFactory.TradeNonce f < uint64_modulus ->
  OrderFactory.CurrentOrderID (call_all f calls) =
    (OrderFactory.CurrentOrderID f + count_calls builds_order calls)
      mod uint64_modulus /\
  OrderFactory.OrderNonce (call_all f calls) =
    (OrderFactory.OrderNonce f + count_calls builds_order calls)
      mod uint64_modulus /\
  OrderFactory.TradeNonce (call_all f calls) =
    (OrderFactory.TradeNonce f + count_calls builds_trade calls)
      mod uint64_modulus.
Proof. intros Hc Hn Ht. exact (call_all_counters_mod f calls Hc Hn Ht). Qed.

(** X2.  On a factory returned by [NewOrderFactory], [OrderNonce] and
    [CurrentOrderID] are equal after every sequence of calls: the two
    counters never part. *)
Theorem OrderNonce_follows_CurrentOrderID dial config_Exchange ng p w f
    calls :
  NewOrderFactory dial config_Exchange ng p w = Some f ->
  OrderFactory.OrderNonce (call_all f calls) =
    OrderFactory.CurrentOrderID (call_all f calls).
Proof.
  intros Hnew.
  destruct (NewOrderFactory_counters _ _ _ _ _ _ Hnew) as (Hc & Hn & Ht).
  destruct (call_all_counters_mod f calls) as (-> & -> & _);
    rewrite ?Hc, ?Hn, ?Ht; done.
Qed.

Lemma call_all_fixed_fields f calls :
  let f' := call_all f calls in
  OrderFactory.Pair f' = OrderFactory.Pair f /\
  OrderFactory.Wallet f' = OrderFactory.Wallet f /\
  OrderFactory.Params f' = OrderFactory.Params f /\
  OrderFactory.Client f' = OrderFactory.Client f /\
  OrderFactory.Exchange f' =
    default (OrderFactory.Exchange f) (last (omap exchange_set calls)).
Proof.
  induction calls as [|c calls IH] using rev_ind; [done|].
  cbv zeta in *. rewrite call_all_snoc.
  destruct (call_factory_fields (call_all f calls) c)
    as (_ & _ & _ & -> & -> & -> & -> & ->).
  destruct IH as (-> & -> & -> & -> & ->).
  repeat split. rewrite omap_app. cbn [omap list_omap].
  destruct (exchange_set c) as [exchange|]; cbn [default].
  - by rewrite last_snoc.
  - by rewrite app_nil_r.
Qed.

(** X3.  No sequence of calls changes the pair, the wallet, the parameters
    or the client of a factory, and the exchange address is the argument of
    the last [SetExchangeAddress] of the sequence, or the initial one when
    there is none. *)
Theorem call_all_configuration f calls :
  OrderFactory.Pair (call_all f calls) = OrderFactory.Pair f /\
  OrderFactory.Wallet (call_all f calls) = OrderFactory.Wallet f /\
  OrderFactory.Params (call_all f calls) = OrderFactory.Params f /\
  OrderFactory.Client (call_all f calls) = OrderFactory.Client f /\
  OrderFactory.Exchange (call_all f calls) =
    default (OrderFactory.Exchange f) (last (omap exchange_set calls)).
Proof. exact (call_all_fixed_fields f calls). Qed.

(** The fields [NewOrder] copies from the factory and from the tokens. *)
Lemma NewOrder_copied_fields f tokenBuy amountBuy tokenSell amountSell :
  let o := (NewOrder f tokenBuy amountBuy tokenSell amountSell).1.1 in
  Order.ExchangeAddress o = OrderFactory.Exchange f /\
  Order.Maker o = Wallet.Address (OrderFactory.Wallet f) /\
  Order.PairID o = TokenPair.ID (OrderFactory.Pair f) /\
  Order.Expires o = OrderParams.Expires (OrderFactory.Params f) /\
  Order.FeeMake o = OrderParams.FeeMake (OrderFactory.Params f) /\
  Order.FeeTake o = OrderParams.FeeTake (OrderFactory.Params f) /\
  Order.TokenBuy o = Token.Address tokenBuy /\
  Order.TokenSell o = Token.Address tokenSell.
Proof.
  unfold NewOrder. destruct (Intn _ 1000) as [n ng]. cbn. repeat split.
Qed.

(** X4.  [NewOrderFactory] returns no factory when the dial fails.  When it
    succeeds, the order built after any sequence of calls on the factory has
    for identifier the number of orders built before it, modulo [2^64], for
    exchange address the last one set, or the configured one, for maker the
    address of the wallet, for pair the identifier of the pair, expires at
    [10^18] and has no fees. *)
Theorem NewOrderFactory_then_NewOrder dial config_Exchange ng p w calls
    tokenBuy amountBuy tokenSell amountSell :
  match NewOrderFactory dial config_Exchange ng p w with
  | None => exists e, dial = inr e
  | Some f =>
      let o :=
        (NewOrder (call_all f calls) tokenBuy amountBuy tokenSell
           amountSell).1.1 in
      (exists client, dial = inl client) /\
      Order.Id o = count_calls builds_order calls mod uint64_modulus /\
      Order.ExchangeAddress o =
        default config_Exchange (last (omap exchange_set calls)) /\
      Order.Maker o = Wallet.Address w /\
      Order.PairID o = TokenPair.ID p /\
      Order.Expires o = 10 ^ 18 /\
      Order.FeeMake o = 0 /\
      Order.FeeTake o = 0
  end.
Proof.
  destruct dial as [client|e]; cbn [NewOrderFactory]; [|by exists e].
  set (f := OrderFactory.mk client p w config_Exchange _ 0 0 0 ng).
  cbv zeta.
  destruct (NewOrder_order (call_all f calls) tokenBuy amountBuy tokenSell
              amountSell) as (Hid & _).
  destruct (NewOrder_copied_fields (call_all f calls) tokenBuy amountBuy
              tokenSell amountSell)
    as (Hex & Hmk & Hpair & Hexp & Hfm & Hft & _).
  cbv zeta in Hid, Hex, Hmk, Hpair, Hexp, Hfm, Hft.
  destruct (call_all_fixed_fields f calls) as (HP & HW & HPa & _ & HE).
  destruct (call_all_counters_mod f calls) as (HC & _); [done..|].
  cbv zeta in HP, HW, HPa, HE, HC.
  rewrite Hid, Hex, Hmk, Hpair, Hexp, Hfm, Hft, HP, HW, HPa, HE, HC.
  split; [by exists client|]. done.
Qed.

(** X5.  A trade and a cancellation built for an order by the factory that
    built it, after any sequence of calls in between, refer to the hash of
    the order and to its pair; the taker of the trade is the maker of the
    order, and the cancellation has the identifier of the order. *)
Theorem entities_of_one_factory f tokenBuy amountBuy tokenSell amountSell
    calls (amount : Z) :
  let built := NewOrder f tokenBuy amountBuy tokenSell amountSell in
  let o := built.1.1 in
  let t := (NewTrade (call_all built.2 calls) o amount).1.1 in
  let oc := (NewOrderCancel (call_all built.2 calls) o).1.1 in
  (Trade.OrderHash t = Order.Hash o /\
   Trade.PairID t = Order.PairID o /\
   Trade.Taker t = Order.Maker o /\
   Trade.Amount t = amount) /\
  (OrderCancel.OrderId oc = Order.Id o /\
   OrderCancel.PairID oc = Order.PairID o /\
   OrderCancel.OrderHash oc = Order.Hash o).
Proof.
  intros built o t oc.
  destruct (NewOrder_copied_fields f tokenBuy amountBuy tokenSell amountSell)
    as (_ & Hmk & Hpair & _).
  destruct (NewOrder_factory f tokenBuy amountBuy tokenSell amountSell)
    as (_ & _ & _ & HP1 & HW1 & _).
  cbv zeta in Hmk, Hpair, HP1, HW1. fold built in Hmk, Hpair, HP1, HW1.
  fold o in Hmk, Hpair.
  destruct (call_all_fixed_fields built.2 calls) as (HP & HW & _).
  cbv zeta in HP, HW.
  rewrite Hmk, Hpair, <- HP1, <- HW1, <- HP, <- HW.
  unfold t, oc, NewTrade, NewOrderCancel.
  destruct (Intn _ 1000) as [n ng]. cbn. done.
Qed.

End FactoryCalls.

(** * Further properties of the socket *)

Section HandlerRuns.
Context {eng : Engine} {conn : Connection} {dec : Decoders}.

Implicit Types (s : Socket.t) (p : Payload) (m : Message.t) (e : Event.t).

(** The three inbound handlers, run to their end. *)
Lemma placeOrder_run p s :
  placeOrder p s =
    match p with
    | JsonPayload (JObject fields) =>
        match fields !! "order" with
        | Some (JObject inner) =>
            let o :=
              Order.set_events (Some (Socket.events s))
                (Order_Decode inner Order.zero) in
            Returns tt
              (Socket.mk (Socket.events s) (Socket.engine s ++ [AddOrder o])
                 (Socket.connection s)
                 (match engine_reply (Socket.engine s) (AddOrder o) with
                  | Some err =>
                      Socket.log s ++
                        [("Error: Failed processing order: %v", ErrorArg err)]
                  | None => Socket.log s
                  end)
                 (Socket.stdout s))
        | _ => Panics interface_conversion s
        end
    | _ => Panics interface_conversion s
    end.
Proof.
  destruct p as [[| | | | |fields]| | | | |]; try reflexivity.
  unfold placeOrder, mbind, Hub_bind. cbn [assert_map].
  unfold mret, Hub_ret, index.
  destruct (fields !! "order") as [[| | | | |inner]|]; try reflexivity.
  cbn [default]. hub_run. by destruct (engine_reply _ _).
Qed.

Lemma cancelOrder_run p s :
  let decoded := DecodeOrderCancelPayload NewOrderCancelPayload p in
  let oc := OrderCancelPayload.OrderCancel decoded.1 in
  let log1 :=
    match decoded.2 with
    | Some err => Socket.log s ++ [("Error: %v", ErrorArg err)]
    | None => Socket.log s
    end in
  cancelOrder p s =
    Returns tt
      (Socket.mk (Socket.events s) (Socket.engine s ++ [CancelOrder oc])
         (Socket.connection s)
         (match engine_reply (Socket.engine s) (CancelOrder oc) with
          | Some err => log1 ++ [("Error: %v", ErrorArg err)]
          | None => log1
          end)
         (Socket.stdout s)).
Proof.
  unfold cancelOrder.
  destruct (DecodeOrderCancelPayload _ p) as [ocp [err|]]; hub_run;
    by destruct (engine_reply _ _).
Qed.

Lemma executeOrder_run p s :
  let decoded := DecodeTradePayload NewTradePayload p in
  let t :=
    Trade.set_events (Some (Socket.events s))
      (TradePayload.Trade decoded.1) in
  let log1 :=
    match decoded.2 with
    | Some err => Socket.log s ++ [("Error: %v", ErrorArg err)]
    | None => Socket.log s
    end in
  executeOrder p s =
    Returns tt
      (Socket.mk (Socket.events s) (Socket.engine s ++ [ExecuteOrder t])
         (Socket.connection s)
         (match engine_reply (Socket.engine s) (ExecuteOrder t) with
          | Some err => log1 ++ [("Error: %v", ErrorArg err)]
          | None => log1
          end)
         (Socket.stdout s ++
            [("\nLOG: Executing order. Payload:\n%v\n\n", TradeArg t)])).
Proof.
  unfold executeOrder.
  destruct (DecodeTradePayload _ p) as [tp [err|]]; hub_run;
    by destruct (engine_reply _ _).
Qed.

(** One turn of the inbound loop keeps the channel and the connection, and
    adds to the engine at most one call, which carries the channel. *)
Lemma handleMessageIn_frame m s :
  let s' := socket_after (handleMessageIn m s) in
  Socket.events s' = Socket.events s /\
  Socket.connection s' = Socket.connection s /\
  exists added,
    Socket.engine s' = Socket.engine s ++ added /\
    Forall (carries_events (Socket.events s)) added.
Proof.
  destruct m as [kind p]. unfold handleMessageIn.
  cbn [Message.MessageType Message.Payload].
  destruct kind;
    try (cbn; repeat split; exists []; by rewrite app_nil_r).
  - rewrite placeOrder_run.
    destruct p as [[| | | | |fields]| | | | |];
      try (cbn; repeat split; exists []; by rewrite app_nil_r).
    destruct (fields !! "order") as [[| | | | |inner]|];
      try (cbn; repeat split; exists []; by rewrite app_nil_r).
    cbn. repeat split. eexists [_]. split; [reflexivity|].
    by repeat constructor.
  - pose proof (cancelOrder_run p s) as Hrun. cbv zeta in Hrun.
    rewrite Hrun. cbn. repeat split. eexists [_]. split; [reflexivity|].
    by repeat constructor.
  - pose proof (executeOrder_run p s) as Hrun. cbv zeta in Hrun.
    rewrite Hrun. cbn. repeat split. eexists [_]. split; [reflexivity|].
    by repeat constructor.
Qed.

Lemma handleMessagesIn_frame (queue : list Message.t) s :
  let s' := socket_after (handleMessagesIn queue s) in
  Socket.events s' = Socket.events s /\
  Socket.connection s' = Socket.connection s /\
  exists added,
    Socket.engine s' = Socket.engine s ++ added /\
    Forall (carries_events (Socket.events s)) added.
Proof.
  revert s. induction queue as [|m queue IH]; intros s.
  - cbn. repeat split. exists []. by rewrite app_nil_r.
  - destruct (handleMessageIn_frame m s) as (Hev & Hco & added & Hen & Hall).
    cbv zeta in *. cbn [handleMessagesIn]. unfold mbind, Hub_bind.
    destruct (handleMessageIn m s) as [[] s1|reason s1]; cbn in Hev, Hco, Hen.
    + destruct (IH s1) as (Hev' & Hco' & added' & Hen' & Hall').
      rewrite Hev', Hco', Hen', Hev, Hco, Hen. repeat split.
      exists (added ++ added'). rewrite app_assoc. split; [done|].
      apply Forall_app. split; [done|]. by rewrite <- Hev.
    + cbn. repeat split; try done. by exists added.
Qed.

(** X6.  The inbound loop never writes to the connection and keeps the
    events channel of the socket, whatever the queue and whether it ends in
    a panic or not: no inbound message is answered by a frame. *)
Theorem handleMessagesIn_never_writes (queue : list Message.t) s :
  Socket.connection (socket_after (handleMessagesIn queue s)) =
    Socket.connection s /\
  Socket.events (socket_after (handleMessagesIn queue s)) = Socket.events s.
Proof. destruct (handleMessagesIn_frame queue s) as (? & ? & _). done. Qed.

(** X7.  Every order and every trade the inbound loop passes to the engine
    carries the events channel of the socket, whatever the decoders made of
    the payload. *)
Theorem handleMessagesIn_attaches_events (queue : list Message.t) s :
  exists added,
    Socket.engine (socket_after (handleMessagesIn queue s)) =
      Socket.engine s ++ added /\
    Forall (carries_events (Socket.events s)) added.
Proof. destruct (handleMessagesIn_frame queue s) as (_ & _ & H). exact H. Qed.

End HandlerRuns.

Section InboundLoop.
Context {dec : Decoders}.

Implicit Types (s : Socket.t) (p : Payload) (m : Message.t).

(** X8.  [DONE] messages are transparent: the inbound loop ends in the same
    outcome and the same socket on a queue and on the queue without its
    [DONE] messages. *)
Theorem handleMessagesIn_skips_done {eng : Engine} (queue : list Message.t)
    s :
  handleMessagesIn (filter (fun m => is_done m = false) queue) s =
    handleMessagesIn queue s.
Proof.
  revert s. induction queue as [|m queue IH]; intros s; [reflexivity|].
  rewrite filter_cons. destruct (decide (is_done m = false)) as [Hm|Hm].
  - cbn [handleMessagesIn]. unfold mbind, Hub_bind.
    destruct (handleMessageIn m s) as [[] s1|reason s1]; [apply IH|done].
  - rewrite IH. cbn [handleMessagesIn]. unfold mbind, Hub_bind.
    destruct m as [kind p]. unfold is_done in Hm. cbn in Hm.
    unfold handleMessageIn. cbn [Message.MessageType].
    by destruct kind.
Qed.

(** On a queue without a nil pointer, the inbound loop ends in a panic
    exactly when the queue holds a message it does not accept. *)
Lemma handleMessagesIn_panics_iff {eng : Engine} (queue : list Message.t)
    s :
  panicked (handleMessagesIn queue s) = negb (forallb message_accepted queue).
Proof.
  revert s. induction queue as [|m queue IH]; intros s; [reflexivity|].
  cbn [handleMessagesIn forallb]. unfold mbind, Hub_bind.
  destruct (message_accepted m) eqn:Hm; cbn [andb negb].
  - unfold message_accepted in Hm. apply andb_prop in Hm as [Hkind Hwf].
    destruct (handleMessageIn_accepted m s Hkind Hwf) as (s1 & -> & _).
    apply IH.
  - unfold message_accepted in Hm. apply andb_false_iff in Hm as [Hkind|Hwf].
    + by rewrite (handleMessageIn_unknown m s Hkind).
    + destruct m as [kind p]. unfold place_order_well_formed in Hwf.
      cbn in Hwf. destruct kind; try discriminate.
      unfold handleMessageIn. cbn [Message.MessageType Message.Payload].
      by rewrite (placeOrder_without_order p s Hwf).
Qed.

Lemma handleMessageIn_engine_independent (eng1 eng2 : Engine) m s1 s2 :
  without_log s1 = without_log s2 ->
  let r1 := handleMessageIn (eng := eng1) m s1 in
  let r2 := handleMessageIn (eng := eng2) m s2 in
  panicked r1 = panicked r2 /\
  without_log (socket_after r1) = without_log (socket_after r2).
Proof.
  destruct s1 as [ev1 en1 co1 lo1 so1], s2 as [ev2 en2 co2 lo2 so2].
  unfold without_log. cbn. intros [= -> -> -> ->].
  destruct m as [kind p]. unfold handleMessageIn.
  cbn [Message.MessageType Message.Payload].
  destruct kind; try done.
  - rewrite !placeOrder_run.
    destruct p as [[| | | | |fields]| | | | |]; try done.
    by destruct (fields !! "order") as [[| | | | |inner]|].
  - pose proof (cancelOrder_run (eng := eng1) p) as H1.
    pose proof (cancelOrder_run (eng := eng2) p) as H2.
    cbv zeta in H1, H2. by rewrite H1, H2.
  - pose proof (executeOrder_run (eng := eng1) p) as H1.
    pose proof (executeOrder_run (eng := eng2) p) as H2.
    cbv zeta in H1, H2. by rewrite H1, H2.
Qed.

(** X10.  The answers of the engine change nothing but the log: under two
    engines, the inbound loop ends both times in a panic or both times not,
    after the same calls to the engine, with the same connection and the
    same standard output.  A rejected request is not retried, not answered
    and does not stop the loop. *)
Theorem handleMessagesIn_engine_independent (eng1 eng2 : Engine)
    (queue : list Message.t) s :
  let r1 := handleMessagesIn (eng := eng1) queue s in
  let r2 := handleMessagesIn (eng := eng2) queue s in
  panicked r1 = panicked r2 /\
  without_log (socket_after r1) = without_log (socket_after r2).
Proof.
  assert (Hgen : forall s1 s2, without_log s1 = without_log s2 ->
    panicked (handleMessagesIn (eng := eng1) queue s1) =
      panicked (handleMessagesIn (eng := eng2) queue s2) /\
    without_log (socket_after (handleMessagesIn (eng := eng1) queue s1)) =
      without_log (socket_after (handleMessagesIn (eng := eng2) queue s2))).
  { induction queue as [|m queue IH]; intros s1 s2 Hs; [done|].
    destruct (handleMessageIn_engine_independent eng1 eng2 m s1 s2 Hs)
      as [Hp Hw].
    cbv zeta in Hp, Hw. cbn [handleMessagesIn]. unfold mbind, Hub_bind.
    destruct (handleMessageIn (eng := eng1) m s1) as [[] a|ra a],
             (handleMessageIn (eng := eng2) m s2) as [[] b|rb b];
      try discriminate Hp; [by apply IH|done]. }
  by apply Hgen.
Qed.

(** The loop on pointers, on a queue without a nil pointer. *)
Lemma handleMessagesIn_pointers_Some {eng : Engine}
    (queue : list Message.t) s :
  handleMessagesIn_pointers (Some <$> queue) s = handleMessagesIn queue s.
Proof.
  revert s. induction queue as [|m queue IH]; intros s; [reflexivity|].
  cbn [fmap list_fmap handleMessagesIn_pointers handleMessagesIn].
  unfold mbind, Hub_bind.
  destruct (handleMessageIn m s) as [[] s1|reason s1]; [apply IH|reflexivity].
Qed.

(** X9.  With decoders and an engine that return, the inbound loop ends in
    a panic exactly when the channel delivers a pointer it does not accept:
    a nil pointer, which the reader sends for a frame that is the literal
    [null], a message of a kind other than [PLACE_ORDER], [CANCEL_ORDER],
    [SIGNED_DATA] and [DONE], or a [PLACE_ORDER] whose payload is not an
    object with a nested [order] object.  No error reported by a decoder and
    no answer of the engine makes it panic. *)
Theorem handleMessagesIn_pointers_panics_iff {eng : Engine}
    (queue : list (option Message.t)) s :
  panicked (handleMessagesIn_pointers queue s) =
    negb (forallb pointer_accepted queue).
Proof.
  revert s. induction queue as [|[m|] queue IH]; intros s; [reflexivity| |].
  - cbn [handleMessagesIn_pointers forallb pointer_accepted].
    unfold mbind, Hub_bind.
    pose proof (handleMessagesIn_panics_iff [m] s) as Hone.
    cbn [handleMessagesIn forallb] in Hone. unfold mbind, Hub_bind in Hone.
    rewrite andb_true_r in Hone.
    destruct (handleMessageIn m s) as [[] s1|reason s1];
      cbn in Hone; rewrite <- (negb_involutive (message_accepted m)), <- Hone;
      cbn [negb andb]; [apply IH|reflexivity].
  - reflexivity.
Qed.

End InboundLoop.

Section OutboundLoop.

Implicit Types (s : Socket.t) (e : Event.t).

(** The kinds the outbound switch can send. *)
Lemma sent_kind_range (kind sent : MessageType) :
  sent_kind kind = Some sent ->
  sent ∈ [ORDER_PLACED; ORDER_PARTIALLY_FILLED; ORDER_FILLED; ORDER_CANCELED;
          ORDER_EXECUTED; ORDER_TX_SUCCESS; TRADE_EXECUTED; TRADE_TX_SUCCESS].
Proof.
  destruct kind; intros [= <-]; rewrite !elem_of_cons; tauto.
Qed.

Lemma handleMessageOut_accepted {conn : Connection} e s :
  event_accepted e = true ->
  exists s',
    handleMessageOut e s = Returns tt s' /\
    Socket.connection s' = Socket.connection s ++ option_list (sent_message e)
    /\ Socket.engine s' = Socket.engine s.
Proof.
  destruct e as [kind payload]. unfold event_accepted, sent_message.
  cbn [Event.eventType Event.payload].
  destruct kind; try discriminate;
    destruct payload; try discriminate; intros _;
    send_run; try destruct (WriteJSON_reply _ _); cbn;
    eexists; rewrite ?app_nil_r; eauto.
Qed.

Lemma handleMessageOut_rejected {conn : Connection} e s :
  event_accepted e = false ->
  exists s',
    handleMessageOut e s =
      Panics (match sent_kind (Event.eventType e) with
              | Some _ => interface_conversion
              | None => "Unknown action type"
              end) s' /\
    Socket.connection s' = Socket.connection s /\
    Socket.engine s' = Socket.engine s.
Proof.
  destruct e as [kind payload]. unfold event_accepted.
  cbn [Event.eventType Event.payload].
  destruct kind; try discriminate;
    destruct payload; try discriminate; intros _;
    send_run; eauto.
Qed.

Lemma handleMessagesOut_app {conn : Connection} (pre post : list Event.t) s :
  handleMessagesOut (pre ++ post) s =
    match handleMessagesOut pre s with
    | Returns _ s' => handleMessagesOut post s'
    | Panics reason s' => Panics reason s'
    end.
Proof.
  revert s. induction pre as [|e pre IH]; intros s; [reflexivity|].
  cbn [app handleMessagesOut]. unfold mbind, Hub_bind.
  destruct (handleMessageOut e s) as [[] s1|reason s1]; [apply IH|reflexivity].
Qed.

Lemma handleMessagesOut_accepted {conn : Connection} (queue : list Event.t)
    s :
  Forall (fun e => event_accepted e = true) queue ->
  exists s',
    handleMessagesOut queue s = Returns tt s' /\
    Socket.connection s' = Socket.connection s ++ omap sent_message queue /\
    Socket.engine s' = Socket.engine s.
Proof.
  revert s. induction queue as [|e queue IH]; intros s Hall.
  - exists s. by rewrite app_nil_r.
  - apply Forall_cons in Hall as [He Hall].
    destruct (handleMessageOut_accepted e s He) as (s1 & Hrun & Hco & Hen).
    destruct (IH s1 Hall) as (s' & Hrest & Hco' & Hen').
    exists s'. cbn [handleMessagesOut]. unfold mbind, Hub_bind.
    rewrite Hrun, Hrest, Hco', Hen', Hco, Hen, <- app_assoc.
    repeat split. f_equal. cbn [omap list_omap].
    by destruct (sent_message e).
Qed.

(** X11.  On a queue of events that are [DONE] or have a case of their own
    and the payload type that case asserts, the outbound loop returns to its
    receive having handed to the connection one message per event other than
    [DONE], in the order of the events, each around the entity of its event;
    a write that fails loses neither the turn of the later events nor their
    order, and the engine is not called. *)
Theorem handleMessagesOut_fifo {conn : Connection} (queue : list Event.t) s :
  Forall (fun e => event_accepted e = true) queue ->
  exists s',
    handleMessagesOut queue s = Returns tt s' /\
    Socket.connection s' = Socket.connection s ++ omap sent_message queue /\
    Socket.engine s' = Socket.engine s.
Proof. apply handleMessagesOut_accepted. Qed.

(** X12.  The first event that is not [DONE] and has no case of its own, or
    whose payload is not of the type its case asserts, stops the outbound
    loop with a panic: [Unknown action type] in the first case, a failed
    type assertion in the second.  Nothing is written for that event, and
    the events queued behind it are never sent. *)
Theorem handleMessagesOut_stops_at_rejected {conn : Connection}
    (queue rest : list Event.t) e s :
  Forall (fun e => event_accepted e = true) queue ->
  event_accepted e = false ->
  exists s',
    handleMessagesOut (queue ++ e :: rest) s =
      Panics (match sent_kind (Event.eventType e) with
              | Some _ => interface_conversion
              | None => "Unknown action type"
              end) s' /\
    Socket.connection s' = Socket.connection s ++ omap sent_message queue.
Proof.
  intros Hall He.
  destruct (handleMessagesOut_accepted queue s Hall) as (s1 & Hrun & Hco & _).
  destruct (handleMessageOut_rejected e s1 He) as (s' & Hpanic & Hco' & _).
  exists s'. rewrite handleMessagesOut_app, Hrun. cbn [handleMessagesOut].
  unfold mbind, Hub_bind. rewrite Hpanic. by rewrite Hco', Hco.
Qed.

(** X13.  Whatever the queue of events and however the loop ends, the
    outbound loop does not call the engine, and every message it hands to
    the connection has one of eight kinds: never [ORDER_TX_ERROR], never
    [TRADE_TX_ERROR], never a kind of inbound message. *)
Theorem handleMessagesOut_sent_kinds {conn : Connection}
    (queue : list Event.t) s :
  let s' := socket_after (handleMessagesOut queue s) in
  Socket.engine s' = Socket.engine s /\
  exists added,
    Socket.connection s' = Socket.connection s ++ added /\
    Forall (fun m =>
              Message.MessageType m ∈
                [ORDER_PLACED; ORDER_PARTIALLY_FILLED; ORDER_FILLED;
                 ORDER_CANCELED; ORDER_EXECUTED; ORDER_TX_SUCCESS;
                 TRADE_EXECUTED; TRADE_TX_SUCCESS]) added.
Proof.
  revert s. induction queue as [|e queue IH]; intros s.
  - cbn. split; [done|]. exists []. by rewrite app_nil_r.
  - cbv zeta in *. cbn [handleMessagesOut]. unfold mbind, Hub_bind.
    destruct (event_accepted e) eqn:He.
    + destruct (handleMessageOut_accepted e s He) as (s1 & -> & Hco & Hen).
      destruct (IH s1) as (Hen' & added & Hco' & Hall).
      rewrite Hen', Hco', Hco, Hen, <- app_assoc. split; [done|].
      eexists. split; [reflexivity|]. apply Forall_app. split; [|done].
      unfold sent_message.
      destruct (sent_kind (Event.eventType e)) as [sent|] eqn:Hsent;
        cbn [option_list]; [|constructor].
      constructor; [|constructor]. cbn. by eapply sent_kind_range.
    + destruct (handleMessageOut_rejected e s He) as (s1 & -> & Hco & Hen).
      cbn. split; [done|]. exists []. by rewrite app_nil_r.
Qed.

Lemma handleMessageOut_connection_independent (conn1 conn2 : Connection) e s :
  handleMessageOut (conn := conn1) e s = handleMessageOut (conn := conn2) e s.
Proof.
  destruct e as [kind payload].
  destruct kind; try reflexivity; destruct payload; try reflexivity;
    send_run; by destruct (WriteJSON_reply _ _), (WriteJSON_reply _ _).
Qed.

(** X14.  The outcome of a write changes nothing: under two connections,
    whatever each answers to [WriteJSON], the outbound loop ends in the same
    outcome and the same socket.  An error returned by a [send...] method is
    neither logged nor retried, and does not stop the loop. *)
Theorem handleMessagesOut_connection_independent (conn1 conn2 : Connection)
    (queue : list Event.t) s :
  handleMessagesOut (conn := conn1) queue s =
    handleMessagesOut (conn := conn2) queue s.
Proof.
  revert s. induction queue as [|e queue IH]; intros s; [reflexivity|].
  cbn [handleMessagesOut]. unfold mbind, Hub_bind.
  rewrite (handleMessageOut_connection_independent conn1 conn2 e s).
  destruct (handleMessageOut e s) as [[] s1|reason s1]; [apply IH|reflexivity].
Qed.

End OutboundLoop.

(** * Properties of the reader loop *)

Lemma listenToMessagesIn_read (ok : list (option (MessageType * JSON)))
    (rest : list Frame) :
  listenToMessagesIn ((inl <$> ok) ++ rest) =
    ((message_read <$> ok) ++ (listenToMessagesIn rest).1,
     (listenToMessagesIn rest).2).
Proof.
  induction ok as [|read ok IH]; cbn.
  - by destruct (listenToMessagesIn rest).
  - cbn in IH. by rewrite IH.
Qed.

(** X15.  The reader loop sends to [messagesIn] what it read before the
    first failed read, in the order read: each message with its JSON payload,
    and a nil pointer for each frame that was the literal [null].  Nothing
    read after the failed read is sent: the frames behind it are never
    delivered.  Without a failed read everything is delivered and nothing is
    logged. *)
Theorem listenToMessagesIn_delivers_prefix
    (ok : list (option (MessageType * JSON))) (err : ReadError)
    (rest : list Frame) :
  (listenToMessagesIn ((inl <$> ok) ++ inr err :: rest)).1 =
    message_read <$> ok /\
  listenToMessagesIn (inl <$> ok) = (message_read <$> ok, []).
Proof.
  split.
  - rewrite listenToMessagesIn_read. cbn. by rewrite app_nil_r.
  - rewrite <- (app_nil_r (inl <$> ok)), listenToMessagesIn_read. cbn.
    by rewrite app_nil_r.
Qed.

(** X16.  The reader loop logs its failed read exactly when the error is a
    close error with a code other than 1001 (going away) and 1006 (abnormal
    closure), and then logs one line with the error; a read that fails for
    any other reason, a payload that is not JSON among them, ends the loop
    without a line in the log. *)
Theorem listenToMessagesIn_log (ok : list (option (MessageType * JSON)))
    (err : ReadError) (rest : list Frame) :
  let lines := (listenToMessagesIn ((inl <$> ok) ++ inr err :: rest)).2 in
  match err with
  | CloseError code text =>
      if decide (code = 1001 \/ code = 1006) then lines = []
      else lines = [("Error: %v", ErrorArg text)]
  | OtherReadError _ => lines = []
  end.
Proof.
  rewrite listenToMessagesIn_read. cbn.
  destruct err as [code text|text]; [|reflexivity].
  unfold CloseGoingAway, CloseAbnormalClosure.
  cbn [IsUnexpectedCloseError unexpected_code ReadError_text].
  destruct (decide (code = 1001 \/ code = 1006)) as [[->| ->]|Hcode];
    try reflexivity.
  destruct (Z.eqb_spec code 1001); [tauto|].
  destruct (Z.eqb_spec code 1006); [tauto|]. reflexivity.
Qed.

(** ** Runs on the stand-ins *)

Lemma call_all_counters_witness :
  0 <= OrderFactory.CurrentOrderID sample_factory < uint64_modulus /\
  0 <= OrderFactory.OrderNonce sample_factory < uint64_modulus /\
  0 <= OrderFactory.TradeNonce sample_factory < uint64_modulus /\
  OrderFactory.CurrentOrderID
    (call_all (rnd := lcg) (sgn := toy_signing) sample_factory
       sample_factory_calls) = 2 /\
  OrderFactory.OrderNonce
    (call_all (rnd := lcg) (sgn := toy_signing) sample_factory
       sample_factory_calls) = 2 /\
  OrderFactory.TradeNonce
    (call_all (rnd := lcg) (sgn := toy_signing) sample_factory
       sample_factory_calls) = 2.
Proof.
  split; [done|]. split; [done|]. split; [done|].
  apply (call_all_counters (rnd := lcg) (sgn := toy_signing) sample_factory
           sample_factory_calls); done.
Defined.

Lemma OrderNonce_follows_CurrentOrderID_witness :
  NewOrderFactory (rnd := lcg) (inl "ws://127.0.0.1:8546") 99 2024
    sample_pair sample_wallet = Some sample_factory /\
  OrderFactory.OrderNonce
    (call_all (rnd := lcg) (sgn := toy_signing) sample_factory
       sample_factory_calls) =
  OrderFactory.CurrentOrderID
    (call_all (rnd := lcg) (sgn := toy_signing) sample_factory
       sample_factory_calls).
Proof.
  split; [reflexivity|].
  apply (OrderNonce_follows_CurrentOrderID (rnd := lcg) (sgn := toy_signing)
           (inl "ws://127.0.0.1:8546") 99 2024 sample_pair sample_wallet
           sample_factory sample_factory_calls).
  reflexivity.
Defined.

Lemma handleMessagesOut_fifo_witness :
  Forall (fun e => event_accepted e = true) sample_events /\
  exists s',
    handleMessagesOut (conn := open_connection) sample_events sample_socket =
      Returns tt s' /\
    Socket.connection s' =
      [Message.mk ORDER_PLACED (OrderPayloadPtr (OrderPayload.mk sample_order));
       Message.mk ORDER_FILLED
         (TradePayloadPtr (TradePayload.mk sample_trade));
       Message.mk TRADE_TX_SUCCESS
         (TradePayloadPtr (TradePayload.mk sample_trade));
       Message.mk ORDER_CANCELED
         (OrderPayloadPtr (OrderPayload.mk sample_order))] /\
    Socket.engine s' = [].
Proof.
  assert (Hall : Forall (fun e => event_accepted e = true) sample_events)
    by (repeat constructor).
  split; [exact Hall|].
  exact (handleMessagesOut_fifo (conn := open_connection) sample_events
           sample_socket Hall).
Defined.

Lemma handleMessagesOut_stops_at_rejected_witness :
  Forall (fun e => event_accepted e = true) sample_events /\
  event_accepted (Event.mk ORDER_FILLED (TradePtr sample_trade)) = false /\
  exists s',
    handleMessagesOut (conn := open_connection)
      (sample_events ++
         Event.mk ORDER_FILLED (TradePtr sample_trade) :: sample_events)
      sample_socket = Panics interface_conversion s' /\
    length (Socket.connection s') = 4%nat.
Proof.
  assert (Hall : Forall (fun e => event_accepted e = true) sample_events)
    by (repeat constructor).
  split; [exact Hall|]. split; [reflexivity|].
  destruct (handleMessagesOut_stops_at_rejected (conn := open_connection)
              sample_events sample_events
              (Event.mk ORDER_FILLED (TradePtr sample_trade)) sample_socket
              Hall eq_refl) as (s' & Hrun & Hco).
  exists s'. split; [exact Hrun|]. rewrite Hco. reflexivity.
Defined.

Example sample_reader_run :
  listenToMessagesIn sample_frames =
    ([Some (Message.mk CANCEL_ORDER (JsonPayload (JObject ∅)));
      Some (Message.mk DONE (JsonPayload JNull))],
     [("Error: %v", ErrorArg "websocket: close 1000 (normal)")]).
Proof. reflexivity. Qed.

Example sample_reader_going_away_is_silent :
  listenToMessagesIn
    [inl (Some (DONE, JNull)); inr (CloseError 1001 "going away");
     inl (Some (DONE, JNull))] =
    ([Some (Message.mk DONE (JsonPayload JNull))], []).
Proof. reflexivity. Qed.

Example sample_null_frame_stops_the_hub :
  let queue := (listenToMessagesIn frames_with_null).1 in
  queue =
    [Some (Message.mk CANCEL_ORDER (JsonPayload (JObject ∅))); None;
     Some (Message.mk SIGNED_DATA (JsonPayload (JObject ∅)))] /\
  exists s',
    handleMessagesIn_pointers (eng := accepting_engine)
      (dec := toy_decoders) queue sample_socket = Panics nil_dereference s' /\
    op_of_call <$> Socket.engine s' = [OpCancelOrder].
Proof. split; [reflexivity|]. eexists. split; reflexivity. Qed.

Example sample_factory_after_calls :
  let f :=
    call_all (rnd := lcg) (sgn := toy_signing) sample_factory
      sample_factory_calls in
  (OrderFactory.CurrentOrderID f, OrderFactory.OrderNonce f,
   OrderFactory.TradeNonce f, OrderFactory.Exchange f) = (2, 2, 2, 555).
Proof. reflexivity. Qed.
